(** * ExprTree.h: the typed expression layer of the SQL front end

    A shallow embedding of [src/Main/SQL/headers/ExprTree.h]: the class
    hierarchy under [ExprTree] becomes one inductive type with a constructor
    per class, and each virtual method becomes one recursive function that
    dispatches on the constructor.  What the methods print on [cout] is kept
    as an explicit list of messages next to the returned value. *)

From Stdlib Require Import ZArith Ascii String List Decimal DecimalString DecimalZ.
From stdpp Require Import gmap strings list.

Local Open Scope Z_scope.

(** Texts are compared by running [+:+] on what is known of them. *)
#[local] Arguments String.append !s1 s2 : simpl nomatch.

(** ** ReturnType *)

Inductive ReturnType : Type :=
| stringType
| intType
| doubleType
| boolType
| errType.

Definition ReturnType_eqb (a b : ReturnType) : bool :=
  match a, b with
  | stringType, stringType
  | intType, intType
  | doubleType, doubleType
  | boolType, boolType
  | errType, errType => true
  | _, _ => false
  end.

Notation "a == b" := (ReturnType_eqb a b) (at level 70, no associativity).
Notation "a != b" := (negb (ReturnType_eqb a b)) (at level 70, no associativity).

Definition typeToString (t : ReturnType) : string :=
  match t with
  | intType => "int"
  | doubleType => "double"
  | stringType => "string"
  | boolType => "bool"
  | errType => "error"
  end.

(** ** The standard output stream

    Every [cout << ... << endl] statement of the source appends one message.
    A computation that may print is a value together with the messages it
    printed, in order. *)

Record Out (A : Type) : Type := mkOut { value : A; printed : list string }.
Arguments mkOut {A} _ _.
Arguments value {A} _.
Arguments printed {A} _.

#[export] Instance Out_ret : MRet Out := fun A a => mkOut a [].
#[export] Instance Out_bind : MBind Out := fun A B k m =>
  let r := k (value m) in mkOut (value r) (printed m ++ printed r).

Definition cout (msg : string) : Out unit := mkOut tt [msg].

(** ** The catalog collaborators *)

(** Modelled from the spec: [MyDB_AttType] is declared in MyDB_AttType.h,
    which is not among the sources.  The type checker only calls [isBool()]
    and [toString()] on it ("type.isBoolean() -> bool; type.canonicalName()");
    an attribute type is the pair of these two answers. *)
Record MyDB_AttType : Type := mkAttType {
  isBool : bool;
  AttType_toString : string
}.

(** Modelled from the spec: [MyDB_Schema] (MyDB_Schema.h, not among the
    sources) "maps an attribute name to (position, attribute type)".  A schema
    is the ordered list of its named attributes. *)
Definition MyDB_Schema : Type := list (string * MyDB_AttType).

(** Modelled from the spec: "Schema.lookupAttribute(name) ->
    optional<(position:int, type)>".  The source reads the result of
    [schema->getAttByName (attName)] as a pair whose first component is [-1]
    when the attribute is absent; that case is [None] here. *)
Fixpoint getAttByName_from (i : Z) (atts : MyDB_Schema) (findMe : string)
  : option (Z * MyDB_AttType) :=
  match atts with
  | [] => None
  | a :: rest =>
      if String.eqb a.1 findMe then Some (i, a.2)
      else getAttByName_from (i + 1) rest findMe
  end.

Definition getAttByName (schema : MyDB_Schema) (findMe : string)
  : option (Z * MyDB_AttType) :=
  getAttByName_from 0 schema findMe.

(** Modelled from the spec: [MyDB_Table] (MyDB_Table.h, not among the
    sources); the type checker only asks a table for its schema. *)
Record MyDB_Table : Type := mkTable { getSchema : MyDB_Schema }.

(** ** Number formatting of the C++ library *)

(** [std::to_string (int)]: the decimal digits, with a leading [-] for a
    negative number. *)
Definition to_string_int (n : Z) : string :=
  NilEmpty.string_of_int (Z.to_int n).

(** A [double]: a finite value [(-1)^neg * m * 2^e], an infinity or a NaN. *)
Inductive double : Type :=
| Finite (neg : bool) (m : N) (e : Z)
| Infinity (neg : bool)
| NaN (neg : bool).

(** [num / den] rounded to the nearest integer, ties to the even one. *)
Definition round_half_even (num den : Z) : Z :=
  let q := num / den in
  let r2 := 2 * (num mod den) in
  if r2 <? den then q
  else if den <? r2 then q + 1
  else if Z.even q then q else q + 1.

(** The magnitude [m * 2^e] in millionths, rounded. *)
Definition millionths (m : N) (e : Z) : Z :=
  if 0 <=? e then Z.of_N m * 2 ^ e * 1000000
  else round_half_even (Z.of_N m * 1000000) (2 ^ (- e)).

Definition sign_string (neg : bool) : string := if neg then "-" else "".

(** The last six decimal digits of [n], with leading zeros. *)
Definition six_digits (n : Z) : string :=
  match to_string_int (1000000 + n mod 1000000) with
  | String _ s => s
  | EmptyString => EmptyString
  end.

(** [std::to_string (double)] formats as [printf ("%f")]: sign, integer part,
    a point and six decimals. *)
Definition to_string_double (d : double) : string :=
  match d with
  | Finite neg m e =>
      let n := millionths m e in
      sign_string neg +:+ to_string_int (n / 1000000) +:+ "." +:+ six_digits n
  | Infinity neg => sign_string neg +:+ "inf"
  | NaN neg => sign_string neg +:+ "nan"
  end.

(** ** Expression trees: one constructor per class deriving from [ExprTree] *)

Inductive ExprTree : Type :=
| BoolLiteral (myVal : bool)
| DoubleLiteral (myVal : double)
| IntLiteral (myVal : Z)
| StringLiteral (myVal : string)
| Identifier (tableName attName : string)
| MinusOp (lhs rhs : ExprTree)
| PlusOp (lhs rhs : ExprTree)
| TimesOp (lhs rhs : ExprTree)
| DivideOp (lhs rhs : ExprTree)
| GtOp (lhs rhs : ExprTree)
| LtOp (lhs rhs : ExprTree)
| NeqOp (lhs rhs : ExprTree)
| OrOp (lhs rhs : ExprTree)
| EqOp (lhs rhs : ExprTree)
| NotOp (child : ExprTree)
| SumOp (child : ExprTree)
| AvgOp (child : ExprTree).

(** The constructor [StringLiteral (char *fromMe)] drops the first and the
    last character of the quoted token it is given (the token holds at least
    its two quotes). *)
Fixpoint drop_last (s : string) : string :=
  match s with
  | EmptyString => EmptyString
  | String c EmptyString => EmptyString
  | String c rest => String c (drop_last rest)
  end.

Definition StringLiteral_of_token (fromMe : string) : ExprTree :=
  match drop_last fromMe with
  | String _ s => StringLiteral s
  | EmptyString => StringLiteral EmptyString
  end.

(** ** toString *)

Fixpoint toString (e : ExprTree) : string :=
  match e with
  | BoolLiteral myVal => if myVal then "bool[true]" else "bool[false]"
  | DoubleLiteral myVal => "double[" +:+ to_string_double myVal +:+ "]"
  | IntLiteral myVal => "int[" +:+ to_string_int myVal +:+ "]"
  | StringLiteral myVal => "string[" +:+ myVal +:+ "]"
  | Identifier tableName attName => "[" +:+ tableName +:+ "_" +:+ attName +:+ "]"
  | MinusOp lhs rhs => "- (" +:+ toString lhs +:+ ", " +:+ toString rhs +:+ ")"
  | PlusOp lhs rhs => "+ (" +:+ toString lhs +:+ ", " +:+ toString rhs +:+ ")"
  | TimesOp lhs rhs => "* (" +:+ toString lhs +:+ ", " +:+ toString rhs +:+ ")"
  | DivideOp lhs rhs => "/ (" +:+ toString lhs +:+ ", " +:+ toString rhs +:+ ")"
  | GtOp lhs rhs => "> (" +:+ toString lhs +:+ ", " +:+ toString rhs +:+ ")"
  | LtOp lhs rhs => "< (" +:+ toString lhs +:+ ", " +:+ toString rhs +:+ ")"
  | NeqOp lhs rhs => "!= (" +:+ toString lhs +:+ ", " +:+ toString rhs +:+ ")"
  | OrOp lhs rhs => "|| (" +:+ toString lhs +:+ ", " +:+ toString rhs +:+ ")"
  | EqOp lhs rhs => "== (" +:+ toString lhs +:+ ", " +:+ toString rhs +:+ ")"
  | NotOp child => "!(" +:+ toString child +:+ ")"
  | SumOp child => "sum(" +:+ toString child +:+ ")"
  | AvgOp child => "avg(" +:+ toString child +:+ ")"
  end.

(** ** typeCheck *)

(** The loop of [Identifier::typeCheck] over [tablesToProcess]: the table
    name of the first pair whose second component is the alias; [None] is
    [foundAlias == false]. *)
Fixpoint findAlias (tablesToProcess : list (string * string)) (tableName : string)
  : option string :=
  match tablesToProcess with
  | [] => None
  | p :: rest =>
      if String.eqb p.2 tableName then Some p.1 else findAlias rest tableName
  end.

(** The last lines of [Identifier::typeCheck], from [attType->isBool ()] on. *)
Definition attTypeToReturnType (attType : MyDB_AttType) : ReturnType :=
  if isBool attType then boolType
  else
    let typeStr := AttType_toString attType in
    if String.eqb typeStr "int" then intType
    else if String.eqb typeStr "double" then doubleType
    else if String.eqb typeStr "string" then stringType
    else errType.

Definition Identifier_typeCheck (allTables : gmap string MyDB_Table)
    (tablesToProcess : list (string * string)) (tableName attName : string)
  : Out ReturnType :=
  match findAlias tablesToProcess tableName with
  | None =>
      cout ("ERROR: Table alias '" +:+ tableName +:+ "' not found in query");;
      mret errType
  | Some actualTableName =>
      match allTables !! actualTableName with
      | None =>
          cout ("ERROR: Table '" +:+ actualTableName +:+ "' not found in catalog");;
          mret errType
      | Some table =>
          let schema := getSchema table in
          match getAttByName schema attName with
          | None =>
              cout ("ERROR: Attribute '" +:+ attName +:+ "' not found in table '"
                    +:+ actualTableName);;
              mret errType
          | Some attInfo => mret (attTypeToReturnType attInfo.2)
          end
      end
  end.

(** What each operator does once its children have been type-checked. *)

Definition MinusOp_typeCheck (leftType rightType : ReturnType) : Out ReturnType :=
  if (leftType == errType) || (rightType == errType) then mret errType
  else if (leftType == stringType) || (rightType == stringType) then
    cout "ERROR: Cannot subtract string values";; mret errType
  else if (leftType == boolType) || (rightType == boolType) then
    cout "ERROR: Cannot subtract bool values";; mret errType
  else if (leftType == intType) && (rightType == intType) then mret intType
  else mret doubleType.

Definition PlusOp_typeCheck (leftType rightType : ReturnType) : Out ReturnType :=
  if (leftType == errType) || (rightType == errType) then mret errType
  else if (leftType == stringType) || (rightType == stringType) then mret stringType
  else if (leftType == boolType) || (rightType == boolType) then
    cout "ERROR: Cannot add bool values";; mret errType
  else if (leftType == intType) && (rightType == intType) then mret intType
  else mret doubleType.

Definition TimesOp_typeCheck (leftType rightType : ReturnType) : Out ReturnType :=
  if (leftType == errType) || (rightType == errType) then mret errType
  else if (leftType == stringType) || (rightType == stringType) then
    cout "ERROR: Cannot multiply string values";; mret errType
  else if (leftType == boolType) || (rightType == boolType) then
    cout "ERROR: Cannot multiply bool values";; mret errType
  else if (leftType == intType) && (rightType == intType) then mret intType
  else mret doubleType.

Definition DivideOp_typeCheck (leftType rightType : ReturnType) : Out ReturnType :=
  if (leftType == errType) || (rightType == errType) then mret errType
  else if (leftType == stringType) || (rightType == stringType) then
    cout "ERROR: Cannot divide string values";; mret errType
  else if (leftType == boolType) || (rightType == boolType) then
    cout "ERROR: Cannot divide bool values";; mret errType
  else mret doubleType.

(** The message of [GtOp], [LtOp] and [EqOp], and of the last branch of
    [NeqOp]. *)
Definition incompatible (leftType rightType : ReturnType) : string :=
  "ERROR: Cannot compare incompatible types: "
  +:+ "left=" +:+ typeToString leftType +:+ ", right=" +:+ typeToString rightType.

Definition GtOp_typeCheck (leftType rightType : ReturnType) : Out ReturnType :=
  if (leftType == errType) || (rightType == errType) then mret errType
  else if (leftType == stringType) || (rightType == stringType) then
    if leftType != rightType then
      cout (incompatible leftType rightType);; mret errType
    else mret boolType
  else if ((leftType == intType) || (leftType == doubleType))
          && ((rightType == intType) || (rightType == doubleType)) then
    mret boolType
  else
    cout (incompatible leftType rightType);; mret errType.

Definition LtOp_typeCheck (leftType rightType : ReturnType) : Out ReturnType :=
  if (leftType == errType) || (rightType == errType) then mret errType
  else if (leftType == stringType) || (rightType == stringType) then
    if leftType != rightType then
      cout (incompatible leftType rightType);; mret errType
    else mret boolType
  else if ((leftType == intType) || (leftType == doubleType))
          && ((rightType == intType) || (rightType == doubleType)) then
    mret boolType
  else
    cout (incompatible leftType rightType);; mret errType.

Definition NeqOp_typeCheck (leftType rightType : ReturnType) : Out ReturnType :=
  if (leftType == errType) || (rightType == errType) then mret errType
  else if (leftType == stringType) || (rightType == stringType) then
    if leftType != rightType then
      cout ("ERROR: Cannot compare incompatible types: "
            +:+ typeToString leftType +:+ ", right=" +:+ typeToString rightType);;
      mret errType
    else mret boolType
  else if ((leftType == intType) || (leftType == doubleType))
          && ((rightType == intType) || (rightType == doubleType)) then
    mret boolType
  else
    cout (incompatible leftType rightType);; mret errType.

Definition OrOp_typeCheck (leftType rightType : ReturnType) : Out ReturnType :=
  if (leftType == errType) || (rightType == errType) then mret errType
  else if (leftType != boolType) || (rightType != boolType) then
    cout ("ERROR: OR operator requires boolean operands, but got "
          +:+ typeToString leftType +:+ " and " +:+ typeToString rightType +:+ ".");;
    mret errType
  else mret boolType.

Definition EqOp_typeCheck (leftType rightType : ReturnType) : Out ReturnType :=
  if (leftType == errType) || (rightType == errType) then mret errType
  else if (leftType == stringType) || (rightType == stringType) then
    if leftType != rightType then
      cout (incompatible leftType rightType);; mret errType
    else mret boolType
  else if ((leftType == intType) || (leftType == doubleType))
          && ((rightType == intType) || (rightType == doubleType)) then
    mret boolType
  else
    cout (incompatible leftType rightType);; mret errType.

Definition NotOp_typeCheck (childType : ReturnType) : Out ReturnType :=
  if childType == errType then mret errType
  else if childType != boolType then
    cout ("ERROR: NOT operator requires a boolean expression, but got type "
          +:+ typeToString childType);;
    mret errType
  else mret boolType.

Definition SumOp_typeCheck (child : ExprTree) (childType : ReturnType)
  : Out ReturnType :=
  if childType == errType then mret errType
  else if (childType == stringType) || (childType == boolType) then
    cout ("ERROR: Cannot apply SUM to non-numeric attribute: " +:+ toString child);;
    mret errType
  else mret childType.

Definition AvgOp_typeCheck (child : ExprTree) (childType : ReturnType)
  : Out ReturnType :=
  if childType == errType then mret errType
  else if (childType == stringType) || (childType == boolType) then
    cout ("ERROR: Cannot apply AVG to non-numeric attribute: " +:+ toString child);;
    mret errType
  else mret doubleType.

Fixpoint typeCheck (allTables : gmap string MyDB_Table)
    (tablesToProcess : list (string * string)) (e : ExprTree) : Out ReturnType :=
  let tc := typeCheck allTables tablesToProcess in
  match e with
  | BoolLiteral _ => mret boolType
  | DoubleLiteral _ => mret doubleType
  | IntLiteral _ => mret intType
  | StringLiteral _ => mret stringType
  | Identifier tableName attName =>
      Identifier_typeCheck allTables tablesToProcess tableName attName
  | MinusOp lhs rhs =>
      leftType ← tc lhs; rightType ← tc rhs;
      MinusOp_typeCheck leftType rightType
  | PlusOp lhs rhs =>
      leftType ← tc lhs; rightType ← tc rhs;
      PlusOp_typeCheck leftType rightType
  | TimesOp lhs rhs =>
      leftType ← tc lhs; rightType ← tc rhs;
      TimesOp_typeCheck leftType rightType
  | DivideOp lhs rhs =>
      leftType ← tc lhs; rightType ← tc rhs;
      DivideOp_typeCheck leftType rightType
  | GtOp lhs rhs =>
      leftType ← tc lhs; rightType ← tc rhs;
      GtOp_typeCheck leftType rightType
  | LtOp lhs rhs =>
      leftType ← tc lhs; rightType ← tc rhs;
      LtOp_typeCheck leftType rightType
  | NeqOp lhs rhs =>
      leftType ← tc lhs; rightType ← tc rhs;
      NeqOp_typeCheck leftType rightType
  | OrOp lhs rhs =>
      leftType ← tc lhs; rightType ← tc rhs;
      OrOp_typeCheck leftType rightType
  | EqOp lhs rhs =>
      leftType ← tc lhs; rightType ← tc rhs;
      EqOp_typeCheck leftType rightType
  | NotOp child =>
      childType ← tc child; NotOp_typeCheck childType
  | SumOp child =>
      childType ← tc child; SumOp_typeCheck child childType
  | AvgOp child =>
      childType ← tc child; AvgOp_typeCheck child childType
  end.

(** ** isAggregate: [false] unless a class overrides it *)

Fixpoint isAggregate (e : ExprTree) : bool :=
  match e with
  | MinusOp lhs rhs => isAggregate lhs || isAggregate rhs
  | PlusOp lhs rhs => isAggregate lhs || isAggregate rhs
  | TimesOp lhs rhs => isAggregate lhs || isAggregate rhs
  | DivideOp lhs rhs => isAggregate lhs || isAggregate rhs
  | SumOp _ => true
  | AvgOp _ => true
  | _ => false
  end.

(** ** getReferencedAttributes

    The method adds to the set it is handed; the set after the call is the
    result.  "Default: this expression refers to no attributes." *)

Fixpoint getReferencedAttributes (e : ExprTree) (atts : gset (string * string))
  : gset (string * string) :=
  match e with
  | Identifier tableName attName => {[ (tableName, attName) ]} ∪ atts
  | MinusOp lhs rhs => getReferencedAttributes rhs (getReferencedAttributes lhs atts)
  | PlusOp lhs rhs => getReferencedAttributes rhs (getReferencedAttributes lhs atts)
  | TimesOp lhs rhs => getReferencedAttributes rhs (getReferencedAttributes lhs atts)
  | DivideOp lhs rhs => getReferencedAttributes rhs (getReferencedAttributes lhs atts)
  | _ => atts
  end.

(** ** Families of node kinds *)

Definition arithmetic_nodes : list (ExprTree -> ExprTree -> ExprTree) :=
  [PlusOp; MinusOp; TimesOp; DivideOp].

Definition comparison_nodes : list (ExprTree -> ExprTree -> ExprTree) :=
  [GtOp; LtOp; EqOp; NeqOp].

Definition binary_nodes : list (ExprTree -> ExprTree -> ExprTree) :=
  arithmetic_nodes ++ comparison_nodes ++ [OrOp].

Definition aggregate_nodes : list (ExprTree -> ExprTree) := [SumOp; AvgOp].

Definition unary_nodes : list (ExprTree -> ExprTree) := NotOp :: aggregate_nodes.

Definition numeric (t : ReturnType) : Prop := t = intType \/ t = doubleType.

(** [s] is [e] or lies beneath it. *)
Inductive subtree (s : ExprTree) : ExprTree -> Prop :=
| subtree_refl : subtree s s
| subtree_left node lhs rhs :
    In node binary_nodes -> subtree s lhs -> subtree s (node lhs rhs)
| subtree_right node lhs rhs :
    In node binary_nodes -> subtree s rhs -> subtree s (node lhs rhs)
| subtree_child node child :
    In node unary_nodes -> subtree s child -> subtree s (node child).

(** Every attribute reference of a tree, wherever it lies. *)
Fixpoint attribute_references (e : ExprTree) : gset (string * string) :=
  match e with
  | BoolLiteral _ | DoubleLiteral _ | IntLiteral _ | StringLiteral _ => ∅
  | Identifier tableName attName => {[ (tableName, attName) ]}
  | MinusOp lhs rhs | PlusOp lhs rhs | TimesOp lhs rhs | DivideOp lhs rhs
  | GtOp lhs rhs | LtOp lhs rhs | NeqOp lhs rhs | OrOp lhs rhs | EqOp lhs rhs =>
      attribute_references lhs ∪ attribute_references rhs
  | NotOp child | SumOp child | AvgOp child => attribute_references child
  end.

(** Trees of leaves, arithmetic nodes and, when [aggregates] is set, sum and
    avg nodes. *)
Fixpoint arithmetic_tree (aggregates : bool) (e : ExprTree) : bool :=
  match e with
  | BoolLiteral _ | DoubleLiteral _ | IntLiteral _ | StringLiteral _
  | Identifier _ _ => true
  | MinusOp lhs rhs | PlusOp lhs rhs | TimesOp lhs rhs | DivideOp lhs rhs =>
      arithmetic_tree aggregates lhs && arithmetic_tree aggregates rhs
  | SumOp child | AvgOp child => aggregates && arithmetic_tree aggregates child
  | _ => false
  end.

(** Two attribute references under a sum. *)
Definition sum_of_two_references : ExprTree :=
  SumOp (PlusOp (Identifier "o" "a") (Identifier "c" "b")).

(** A catalog whose table has an attribute of a type that is neither
    boolean nor named int, double or string. *)
Definition dated_orders : gmap string MyDB_Table :=
  {[ "Orders" := mkTable [("amount", mkAttType false "double");
                          ("placed", mkAttType false "date")] ]}.

(** ** Trees that print unambiguously *)

(** The character [c] does not occur in [s]. *)
Fixpoint lacks (c : ascii) (s : string) : bool :=
  match s with
  | EmptyString => true
  | String a rest => negb (Ascii.eqb a c) && lacks c rest
  end.

(** No string literal holds a closing bracket, no alias holds an
    underscore and no attribute name holds a closing bracket. *)
Fixpoint plain (e : ExprTree) : bool :=
  match e with
  | BoolLiteral _ | DoubleLiteral _ | IntLiteral _ => true
  | StringLiteral myVal => lacks "]" myVal
  | Identifier tableName attName => lacks "_" tableName && lacks "]" attName
  | MinusOp lhs rhs | PlusOp lhs rhs | TimesOp lhs rhs | DivideOp lhs rhs
  | GtOp lhs rhs | LtOp lhs rhs | NeqOp lhs rhs | OrOp lhs rhs | EqOp lhs rhs =>
      plain lhs && plain rhs
  | NotOp child | SumOp child | AvgOp child => plain child
  end.

(** Two trees with the same nodes and the same values, where two double
    literals count as the same when [std::to_string] prints them the same. *)
Fixpoint alike (e1 e2 : ExprTree) : Prop :=
  match e1, e2 with
  | BoolLiteral a, BoolLiteral b => a = b
  | DoubleLiteral a, DoubleLiteral b => to_string_double a = to_string_double b
  | IntLiteral a, IntLiteral b => a = b
  | StringLiteral a, StringLiteral b => a = b
  | Identifier t1 a1, Identifier t2 a2 => t1 = t2 /\ a1 = a2
  | MinusOp l1 r1, MinusOp l2 r2
  | PlusOp l1 r1, PlusOp l2 r2
  | TimesOp l1 r1, TimesOp l2 r2
  | DivideOp l1 r1, DivideOp l2 r2
  | GtOp l1 r1, GtOp l2 r2
  | LtOp l1 r1, LtOp l2 r2
  | NeqOp l1 r1, NeqOp l2 r2
  | OrOp l1 r1, OrOp l2 r2
  | EqOp l1 r1, EqOp l2 r2 => alike l1 l2 /\ alike r1 r2
  | NotOp c1, NotOp c2
  | SumOp c1, SumOp c2
  | AvgOp c1, AvgOp c2 => alike c1 c2
  | _, _ => False
  end.

Fixpoint no_double (e : ExprTree) : bool :=
  match e with
  | DoubleLiteral _ => false
  | BoolLiteral _ | IntLiteral _ | StringLiteral _ | Identifier _ _ => true
  | MinusOp lhs rhs | PlusOp lhs rhs | TimesOp lhs rhs | DivideOp lhs rhs
  | GtOp lhs rhs | LtOp lhs rhs | NeqOp lhs rhs | OrOp lhs rhs | EqOp lhs rhs =>
      no_double lhs && no_double rhs
  | NotOp child | SumOp child | AvgOp child => no_double child
  end.

(** The class of the root node of both trees is the same. *)
Definition same_root (e1 e2 : ExprTree) : bool :=
  match e1, e2 with
  | BoolLiteral _, BoolLiteral _
  | DoubleLiteral _, DoubleLiteral _
  | IntLiteral _, IntLiteral _
  | StringLiteral _, StringLiteral _
  | Identifier _ _, Identifier _ _
  | MinusOp _ _, MinusOp _ _
  | PlusOp _ _, PlusOp _ _
  | TimesOp _ _, TimesOp _ _
  | DivideOp _ _, DivideOp _ _
  | GtOp _ _, GtOp _ _
  | LtOp _ _, LtOp _ _
  | NeqOp _ _, NeqOp _ _
  | OrOp _ _, OrOp _ _
  | EqOp _ _, EqOp _ _
  | NotOp _, NotOp _
  | SumOp _, SumOp _
  | AvgOp _, AvgOp _ => true
  | _, _ => false
  end.

(** Two sums that print the same: the text of a string literal may hold
    the brackets and commas of the notation. *)
Definition string_then_bool : ExprTree :=
  PlusOp (StringLiteral_of_token "'a], string[q'") (BoolLiteral true).

Definition string_then_string : ExprTree :=
  PlusOp (StringLiteral_of_token "'a'") (StringLiteral_of_token "'q], bool[true'").

(** ** Shapes of trees *)

(** The fields of a node that hold trees: [lhs] and [rhs], or [child]. *)
Definition children (e : ExprTree) : list ExprTree :=
  match e with
  | BoolLiteral _ | DoubleLiteral _ | IntLiteral _ | StringLiteral _
  | Identifier _ _ => []
  | MinusOp lhs rhs | PlusOp lhs rhs | TimesOp lhs rhs | DivideOp lhs rhs
  | GtOp lhs rhs | LtOp lhs rhs | NeqOp lhs rhs | OrOp lhs rhs | EqOp lhs rhs =>
      [lhs; rhs]
  | NotOp child | SumOp child | AvgOp child => [child]
  end.


Fixpoint no_identifier (e : ExprTree) : bool :=
  match e with
  | Identifier _ _ => false
  | BoolLiteral _ | DoubleLiteral _ | IntLiteral _ | StringLiteral _ => true
  | MinusOp lhs rhs | PlusOp lhs rhs | TimesOp lhs rhs | DivideOp lhs rhs
  | GtOp lhs rhs | LtOp lhs rhs | NeqOp lhs rhs | OrOp lhs rhs | EqOp lhs rhs =>
      no_identifier lhs && no_identifier rhs
  | NotOp child | SumOp child | AvgOp child => no_identifier child
  end.

(** [s] is [e], or is reached from [e] through arithmetic nodes only. *)
Inductive arithmetic_path (s : ExprTree) : ExprTree -> Prop :=
| arithmetic_path_here : arithmetic_path s s
| arithmetic_path_left node lhs rhs :
    In node arithmetic_nodes -> arithmetic_path s lhs ->
    arithmetic_path s (node lhs rhs)
| arithmetic_path_right node lhs rhs :
    In node arithmetic_nodes -> arithmetic_path s rhs ->
    arithmetic_path s (node lhs rhs).


(** An attribute reference that resolves to an attribute whose type is
    neither boolean nor named int, double or string. *)
Definition unrecognized_reference (allTables : gmap string MyDB_Table)
    (tablesToProcess : list (string * string)) (s : ExprTree) : Prop :=
  exists alias attName tableName table i attType,
    s = Identifier alias attName
    /\ findAlias tablesToProcess alias = Some tableName
    /\ allTables !! tableName = Some table
    /\ getAttByName (getSchema table) attName = Some (i, attType)
    /\ attTypeToReturnType attType = errType.

(** * Properties *)

Lemma append_assoc (s1 s2 s3 : string) :
  (s1 +:+ s2) +:+ s3 = s1 +:+ (s2 +:+ s3).
Proof. induction s1 as [| a s1 IH]; simpl; [reflexivity | f_equal; exact IH]. Qed.

(** ** Proof steps *)

(** Splits a membership in one of the node families into its cases. *)
Ltac each_node H :=
  cbn in H;
  repeat (let H' := fresh in destruct H as [H' | H]; [subst |]);
  try contradiction.

(** Names the results of the children of a node and runs the node's rule. *)
Ltac run_children lhs rhs :=
  cbn [typeCheck]; unfold mbind, Out_bind;
  destruct (typeCheck _ _ lhs) as [leftType leftOut];
  destruct (typeCheck _ _ rhs) as [rightType rightOut];
  cbn [value printed] in *.

Ltac run_child child :=
  cbn [typeCheck]; unfold mbind, Out_bind;
  destruct (typeCheck _ _ child) as [childType childOut];
  cbn [value printed] in *.

(** Puts both sides of an equation between printed trees in the form of a
    known text followed by the rest. *)
Ltac expose H :=
  cbn [toString] in H; rewrite ?append_assoc in H; simpl in H.

(** Drops the characters that two texts start with. *)
Ltac strip H := repeat (injection H as H).

(** The step for a binary node: the left child, the comma, the right child
    and the closing parenthesis. *)
Ltac both_children IHl IHr P1 P2 H :=
  let Pl1 := fresh in let Pr1 := fresh in
  let Pl2 := fresh in let Pr2 := fresh in
  let Hl := fresh in let Hr := fresh in
  apply andb_prop in P1 as [Pl1 Pr1]; apply andb_prop in P2 as [Pl2 Pr2];
  apply IHl in H as [Hl H]; [| assumption | assumption]; strip H;
  apply IHr in H as [Hr H]; [| assumption | assumption]; strip H;
  subst; auto.

Section TypeCheck.

Variable allTables : gmap string MyDB_Table.
Variable tablesToProcess : list (string * string).

Abbreviation tc := (typeCheck allTables tablesToProcess).

Lemma binary_node_propagates node lhs rhs :
  In node binary_nodes ->
  value (tc lhs) = errType \/ value (tc rhs) = errType ->
  tc (node lhs rhs) = mkOut errType (printed (tc lhs) ++ printed (tc rhs)).
Proof.
  intros Hnode Herr. each_node Hnode; run_children lhs rhs;
    destruct Herr; subst; destruct leftType || destruct rightType;
    cbn; rewrite ?app_nil_r; reflexivity.
Qed.

Lemma unary_node_propagates node child :
  In node unary_nodes ->
  value (tc child) = errType ->
  tc (node child) = mkOut errType (printed (tc child)).
Proof.
  intros Hnode Herr. each_node Hnode; run_child child; subst;
    cbn; rewrite ?app_nil_r; reflexivity.
Qed.

Lemma subtree_error_reaches_root s e :
  subtree s e -> value (tc s) = errType -> value (tc e) = errType.
Proof.
  induction 1 as [| node lhs rhs Hnode _ IH | node lhs rhs Hnode _ IH
                 | node child Hnode _ IH]; intros Herr.
  - exact Herr.
  - rewrite binary_node_propagates by auto. reflexivity.
  - rewrite binary_node_propagates by auto. reflexivity.
  - rewrite unary_node_propagates by auto. reflexivity.
Qed.

(** C1. An error is infectious.  A composite node one of whose children
    type-checks to [errType] returns [errType]; what it prints is exactly
    what its children print, the left one first: both children of a binary
    node are type-checked even when the left one fails, and the node's own
    rule adds no message.  Hence an error anywhere in a tree reaches the
    root. *)
Theorem error_is_infectious :
  (forall node lhs rhs,
      In node binary_nodes ->
      value (tc lhs) = errType \/ value (tc rhs) = errType ->
      tc (node lhs rhs)
      = mkOut errType (printed (tc lhs) ++ printed (tc rhs)))
  /\ (forall node child,
      In node unary_nodes ->
      value (tc child) = errType ->
      tc (node child) = mkOut errType (printed (tc child)))
  /\ (forall s e,
      subtree s e -> value (tc s) = errType -> value (tc e) = errType).
Proof.
  split; [| split].
  - apply binary_node_propagates.
  - apply unary_node_propagates.
  - apply subtree_error_reaches_root.
Qed.

(** C2. The arithmetic rules, for children that type-check without error.
    A string operand makes minus, times and divide an error and makes plus
    a string; a bool operand makes all four an error (for plus, when no
    operand is a string); two ints give int, except for divide; a double
    next to a number gives double; divide of two numbers is double, and
    divide never returns int. *)
Theorem arithmetic_rules lhs rhs :
  let leftType := value (tc lhs) in
  let rightType := value (tc rhs) in
  let result node := value (tc (node lhs rhs)) in
  leftType <> errType -> rightType <> errType ->
  (leftType = stringType \/ rightType = stringType ->
     result MinusOp = errType /\ result TimesOp = errType
     /\ result DivideOp = errType /\ result PlusOp = stringType)
  /\ (leftType = boolType \/ rightType = boolType ->
     result MinusOp = errType /\ result TimesOp = errType
     /\ result DivideOp = errType
     /\ (leftType <> stringType -> rightType <> stringType ->
         result PlusOp = errType))
  /\ (leftType = intType -> rightType = intType ->
     result MinusOp = intType /\ result TimesOp = intType
     /\ result PlusOp = intType /\ result DivideOp = doubleType)
  /\ (numeric leftType -> numeric rightType ->
     leftType = doubleType \/ rightType = doubleType ->
     result MinusOp = doubleType /\ result TimesOp = doubleType
     /\ result PlusOp = doubleType)
  /\ (numeric leftType -> numeric rightType -> result DivideOp = doubleType)
  /\ result DivideOp <> intType.
Proof.
  unfold numeric. cbn zeta. run_children lhs rhs.
  intros Hl Hr.
  destruct leftType, rightType; try congruence; cbn;
    repeat split; intros; intuition congruence.
Qed.

(** C3. The four comparisons share one rule, for children that type-check
    without error.  With a string on either side the result is bool when
    both sides are strings and an error otherwise; with no string, the
    result is bool when each side is int or double and an error
    otherwise. *)
Theorem comparison_rules node lhs rhs :
  let leftType := value (tc lhs) in
  let rightType := value (tc rhs) in
  let result := value (tc (node lhs rhs)) in
  In node comparison_nodes ->
  leftType <> errType -> rightType <> errType ->
  (leftType = stringType \/ rightType = stringType ->
     (leftType = stringType /\ rightType = stringType -> result = boolType)
     /\ (~ (leftType = stringType /\ rightType = stringType) -> result = errType))
  /\ (leftType <> stringType -> rightType <> stringType ->
     (numeric leftType /\ numeric rightType -> result = boolType)
     /\ (~ (numeric leftType /\ numeric rightType) -> result = errType))
  /\ (forall node', In node' comparison_nodes ->
        value (tc (node' lhs rhs)) = result).
Proof.
  unfold numeric. cbn zeta. intros Hnode.
  assert (Hsame : forall node', In node' comparison_nodes ->
            value (tc (node' lhs rhs))
            = value (GtOp_typeCheck (value (tc lhs)) (value (tc rhs)))).
  { intros node' Hnode'. each_node Hnode'; run_children lhs rhs;
      destruct leftType, rightType; reflexivity. }
  rewrite (Hsame node Hnode).
  split; [| split].
  3: { exact Hsame. }
  all: destruct (value (tc lhs)), (value (tc rhs)); cbn;
    intros; repeat split; intros; intuition congruence.
Qed.

(** C4. Sum and avg.  A string, bool or error child gives an error; on an
    int or double child sum returns the child's type and avg returns
    double; both are aggregates whatever the child is. *)
Theorem aggregate_rules child :
  let childType := value (tc child) in
  (childType = stringType \/ childType = boolType \/ childType = errType ->
     value (tc (SumOp child)) = errType
     /\ value (tc (AvgOp child)) = errType)
  /\ (numeric childType ->
     value (tc (SumOp child)) = childType
     /\ value (tc (AvgOp child)) = doubleType)
  /\ isAggregate (SumOp child) = true
  /\ isAggregate (AvgOp child) = true.
Proof.
  unfold numeric. cbn zeta. run_child child.
  destruct childType; cbn; repeat split; intros; intuition congruence.
Qed.

(** C10. Aggregates nest freely.  Sum and avg treat a numeric child the
    same whether or not it is an aggregate: over a subtree [x] of type int
    or double, [sum(sum(x))] has the type of [x] and [avg(sum(x))] is a
    double, and neither prints anything beyond what [x] prints. *)
Theorem nested_aggregates x :
  numeric (value (tc x)) ->
  tc (SumOp (SumOp x)) = tc x
  /\ tc (AvgOp (SumOp x)) = mkOut doubleType (printed (tc x))
  /\ (forall child,
        value (tc child) = value (tc x) ->
        tc (SumOp child) = tc child
        /\ tc (AvgOp child) = mkOut doubleType (printed (tc child))).
Proof.
  unfold numeric. intros Hx. split; [| split].
  - run_child x. destruct Hx; subst; cbn; rewrite ?app_nil_r; reflexivity.
  - run_child x. destruct Hx; subst; cbn; rewrite ?app_nil_r; reflexivity.
  - intros child Hchild. rewrite <- Hchild in Hx.
    run_child child. clear Hchild.
    destruct Hx; subst; cbn; rewrite ?app_nil_r; split; reflexivity.
Qed.

End TypeCheck.

(** C6. Comparison and boolean nodes keep the defaults of [ExprTree]:
    whatever their children are, also aggregates and attribute references,
    [isAggregate] is false and [getReferencedAttributes] leaves the set as
    it was. *)
Theorem comparison_and_boolean_defaults :
  (forall node lhs rhs atts,
      In node (comparison_nodes ++ [OrOp]) ->
      isAggregate (node lhs rhs) = false
      /\ getReferencedAttributes (node lhs rhs) atts = atts)
  /\ (forall child atts,
      isAggregate (NotOp child) = false
      /\ getReferencedAttributes (NotOp child) atts = atts).
Proof.
  split.
  - intros node lhs rhs atts Hnode. each_node Hnode; split; reflexivity.
  - split; reflexivity.
Qed.

(** ** Attribute references *)

Section Identifier.

Variable allTables : gmap string MyDB_Table.

Lemma findAlias_none tablesToProcess alias :
  (forall p, In p tablesToProcess -> p.2 <> alias) ->
  findAlias tablesToProcess alias = None.
Proof.
  induction tablesToProcess as [| p rest IH]; intros Hno; cbn.
  - reflexivity.
  - destruct (String.eqb_spec p.2 alias) as [Heq | _].
    + exfalso. apply (Hno p); [left; reflexivity | exact Heq].
    + apply IH. intros q Hq. apply Hno. right. exact Hq.
Qed.

Lemma findAlias_first before tableName alias after :
  (forall p, In p before -> p.2 <> alias) ->
  findAlias (before ++ (tableName, alias) :: after) alias = Some tableName.
Proof.
  induction before as [| p rest IH]; intros Hno; cbn.
  - rewrite String.eqb_refl. reflexivity.
  - destruct (String.eqb_spec p.2 alias) as [Heq | _].
    + exfalso. apply (Hno p); [left; reflexivity | exact Heq].
    + apply IH. intros q Hq. apply Hno. right. exact Hq.
Qed.

(** C5. The order in which an attribute reference is resolved.  With no
    binding for the alias the result is an error, whatever the catalog
    holds.  Otherwise the first binding of the alias decides, whatever
    follows it: its table missing from the catalog is an error; else the
    attribute missing from the table's schema is an error; else the type of
    the attribute is mapped: a boolean type to bool, and the names int,
    double and string to their types. *)
Theorem identifier_resolution alias attName :
  (forall tablesToProcess,
      (forall p, In p tablesToProcess -> p.2 <> alias) ->
      typeCheck allTables tablesToProcess (Identifier alias attName)
      = mkOut errType ["ERROR: Table alias '" +:+ alias +:+ "' not found in query"])
  /\ (forall before tableName after,
      (forall p, In p before -> p.2 <> alias) ->
      let result :=
        typeCheck allTables (before ++ (tableName, alias) :: after)
          (Identifier alias attName) in
      (allTables !! tableName = None ->
         result = mkOut errType
                    ["ERROR: Table '" +:+ tableName +:+ "' not found in catalog"])
      /\ (forall table,
         allTables !! tableName = Some table ->
         getAttByName (getSchema table) attName = None ->
         result = mkOut errType
                    ["ERROR: Attribute '" +:+ attName +:+ "' not found in table '"
                     +:+ tableName])
      /\ (forall table i attType,
         allTables !! tableName = Some table ->
         getAttByName (getSchema table) attName = Some (i, attType) ->
         result = mkOut (attTypeToReturnType attType) []
         /\ (isBool attType = true -> value result = boolType)
         /\ (isBool attType = false ->
             (AttType_toString attType = "int" -> value result = intType)
             /\ (AttType_toString attType = "double" -> value result = doubleType)
             /\ (AttType_toString attType = "string" -> value result = stringType)))).
Proof.
  split.
  - intros tablesToProcess Hno. cbn. unfold Identifier_typeCheck.
    rewrite findAlias_none by exact Hno. reflexivity.
  - intros before tableName after Hno. cbn zeta. cbn [typeCheck].
    unfold Identifier_typeCheck. rewrite findAlias_first by exact Hno.
    split; [| split].
    + intros ->. reflexivity.
    + intros table -> ->. reflexivity.
    + intros table i attType -> ->. cbn [snd].
      split; [reflexivity |]. cbn [value mret Out_ret].
      unfold attTypeToReturnType.
      split.
      * intros ->. reflexivity.
      * intros ->. repeat split; intros ->; reflexivity.
Qed.

End Identifier.

(** ** Diagnostics *)

Section Diagnostics.

Variable allTables : gmap string MyDB_Table.
Variable tablesToProcess : list (string * string).

Abbreviation tc := (typeCheck allTables tablesToProcess).

(** An attribute whose type is not boolean and is named otherwise than
    int, double or string is an error that prints nothing. *)
Lemma unrecognized_type_is_silent alias attName tableName table i attType :
  findAlias tablesToProcess alias = Some tableName ->
  allTables !! tableName = Some table ->
  getAttByName (getSchema table) attName = Some (i, attType) ->
  isBool attType = false ->
  AttType_toString attType <> "int" ->
  AttType_toString attType <> "double" ->
  AttType_toString attType <> "string" ->
  tc (Identifier alias attName) = mkOut errType [].
Proof.
  intros Halias Htable Hatt Hbool Hint Hdouble Hstring.
  cbn. unfold Identifier_typeCheck. rewrite Halias, Htable, Hatt. cbn [snd].
  unfold attTypeToReturnType. rewrite Hbool.
  destruct (String.eqb_spec (AttType_toString attType) "int"); [contradiction |].
  destruct (String.eqb_spec (AttType_toString attType) "double"); [contradiction |].
  destruct (String.eqb_spec (AttType_toString attType) "string"); [contradiction |].
  reflexivity.
Qed.

(** Every other failure of a node's own rule prints one message after
    those of the children. *)
Lemma binary_failure_prints node lhs rhs :
  In node binary_nodes ->
  value (tc lhs) <> errType -> value (tc rhs) <> errType ->
  value (tc (node lhs rhs)) = errType ->
  exists msg,
    printed (tc (node lhs rhs)) = printed (tc lhs) ++ printed (tc rhs) ++ [msg].
Proof.
  intros Hnode. each_node Hnode; run_children lhs rhs; intros Hl Hr;
    destruct leftType, rightType; try congruence; cbn; try discriminate;
    intros _; eexists; reflexivity.
Qed.

Lemma unary_failure_prints node child :
  In node unary_nodes ->
  value (tc child) <> errType ->
  value (tc (node child)) = errType ->
  exists msg, printed (tc (node child)) = printed (tc child) ++ [msg].
Proof.
  intros Hnode. each_node Hnode; run_child child; intros Hc;
    destruct childType; try congruence; cbn; try discriminate;
    intros _; eexists; reflexivity.
Qed.

Lemma identifier_failure_prints alias attName :
  value (tc (Identifier alias attName)) = errType ->
  (exists msg, printed (tc (Identifier alias attName)) = [msg])
  \/ (exists tableName table i attType,
        findAlias tablesToProcess alias = Some tableName
        /\ allTables !! tableName = Some table
        /\ getAttByName (getSchema table) attName = Some (i, attType)
        /\ attTypeToReturnType attType = errType
        /\ printed (tc (Identifier alias attName)) = []).
Proof.
  cbn. unfold Identifier_typeCheck.
  destruct (findAlias tablesToProcess alias) as [tableName |] eqn:Halias;
    [| intros _; left; eexists; reflexivity].
  destruct (allTables !! tableName) as [table |] eqn:Htable;
    [| intros _; left; eexists; reflexivity].
  destruct (getAttByName (getSchema table) attName) as [[i attType] |] eqn:Hatt;
    [| intros _; left; eexists; reflexivity].
  cbn. intros Herr. right. exists tableName, table, i, attType. auto.
Qed.

End Diagnostics.

(** C8. [Identifier::typeCheck] on an attribute of an unrecognized type: the
    alias, the table and the attribute are found, the result is [errType],
    and nothing is printed. *)
Theorem unrecognized_type_prints_nothing :
  typeCheck dated_orders [("Orders", "o")] (Identifier "o" "placed")
  = mkOut errType [].
Proof. reflexivity. Qed.

(** ** Collecting attribute references *)

Lemma references_of_arithmetic_tree e atts :
  arithmetic_tree false e = true ->
  getReferencedAttributes e atts = attribute_references e ∪ atts.
Proof.
  revert atts.
  induction e as [b | d | n | s | tableName attName
                 | lhs IHl rhs IHr | lhs IHl rhs IHr
                 | lhs IHl rhs IHr | lhs IHl rhs IHr
                 | | | | | | | |];
    intros atts Harith; cbn in Harith |- *; try discriminate Harith;
    try (symmetry; apply (left_id_L ∅ (∪))); try reflexivity;
    apply andb_prop in Harith as [Hl Hr]; rewrite IHl, IHr by assumption;
    rewrite (assoc_L (∪) (attribute_references rhs));
    rewrite (comm_L (∪) (attribute_references rhs) (attribute_references lhs));
    reflexivity.
Qed.

(** C7, counterexample.  Beneath an aggregate the references are lost:
    [sum] does not hand the set down to its child, and the tree
    [sum(+ ([o_a], [c_b]))] collects nothing. *)
Lemma references_under_sum_are_dropped :
  arithmetic_tree true sum_of_two_references = true
  /\ attribute_references sum_of_two_references = {[ ("o", "a"); ("c", "b") ]}
  /\ getReferencedAttributes sum_of_two_references ∅ = ∅
  /\ getReferencedAttributes sum_of_two_references ∅
     <> {[ ("o", "a"); ("c", "b") ]}.
Proof.
  split; [reflexivity |]. split; [reflexivity |]. split; [reflexivity |].
  cbn. intros Heq.
  assert (Hin : ("o", "a") ∈ (∅ : gset (string * string))).
  { rewrite Heq. set_solver. }
  set_solver.
Qed.

(** C7, amended.  In a tree of arithmetic nodes over leaves the collected
    set is the given one together with every attribute reference of the
    tree, so exactly [{(o,a), (c,b)}] from the empty set when these are its
    references.  An attribute reference adds its pair, another leaf adds
    nothing, an arithmetic node hands the set to both children, and a sum or
    avg node keeps the default and adds nothing. *)
Theorem references_beneath_arithmetic :
  (forall e atts,
      arithmetic_tree false e = true ->
      getReferencedAttributes e atts = attribute_references e ∪ atts)
  /\ (forall e,
      arithmetic_tree false e = true ->
      attribute_references e = {[ ("o", "a"); ("c", "b") ]} ->
      getReferencedAttributes e ∅ = {[ ("o", "a"); ("c", "b") ]})
  /\ (forall tableName attName atts,
      getReferencedAttributes (Identifier tableName attName) atts
      = {[ (tableName, attName) ]} ∪ atts)
  /\ (forall b d n s atts,
      getReferencedAttributes (BoolLiteral b) atts = atts
      /\ getReferencedAttributes (DoubleLiteral d) atts = atts
      /\ getReferencedAttributes (IntLiteral n) atts = atts
      /\ getReferencedAttributes (StringLiteral s) atts = atts)
  /\ (forall node lhs rhs atts,
      In node arithmetic_nodes ->
      getReferencedAttributes (node lhs rhs) atts
      = getReferencedAttributes rhs (getReferencedAttributes lhs atts))
  /\ (forall node child atts,
      In node aggregate_nodes ->
      getReferencedAttributes (node child) atts = atts).
Proof.
  split; [exact references_of_arithmetic_tree |].
  split.
  { intros e Harith Hrefs.
    rewrite references_of_arithmetic_tree by exact Harith.
    rewrite Hrefs. set_solver. }
  split; [reflexivity |].
  split; [intros; repeat split; reflexivity |].
  split.
  - intros node lhs rhs atts Hnode. each_node Hnode; reflexivity.
  - intros node child atts Hnode. each_node Hnode; reflexivity.
Qed.

(** ** Printing *)

Lemma lacks_append c s1 s2 :
  lacks c (s1 +:+ s2) = lacks c s1 && lacks c s2.
Proof.
  induction s1 as [| a s1 IH]; simpl; [reflexivity |].
  rewrite IH. apply andb_assoc.
Qed.

(** A text without [c] ends at the first [c] that follows it. *)
Lemma split_at_first c s1 s2 r1 r2 :
  lacks c s1 = true -> lacks c s2 = true ->
  s1 +:+ String c r1 = s2 +:+ String c r2 ->
  s1 = s2 /\ r1 = r2.
Proof.
  revert s2. induction s1 as [| a s1 IH]; intros [| b s2] H1 H2 Heq;
    simpl in *.
  - injection Heq as ->. split; reflexivity.
  - injection Heq as <- _. rewrite Ascii.eqb_refl in H2. discriminate H2.
  - injection Heq as -> _. rewrite Ascii.eqb_refl in H1. discriminate H1.
  - injection Heq as -> Heq.
    apply andb_prop in H1 as [_ H1]. apply andb_prop in H2 as [_ H2].
    destruct (IH s2 H1 H2 Heq) as [-> ->]. split; reflexivity.
Qed.

Lemma digits_lack_bracket (d : uint) :
  lacks "]" (NilEmpty.string_of_uint d) = true.
Proof. induction d; cbn; auto. Qed.

Lemma to_string_int_lacks_bracket n : lacks "]" (to_string_int n) = true.
Proof.
  unfold to_string_int. destruct (Z.to_int n); cbn; apply digits_lack_bracket.
Qed.

Lemma to_string_int_inj n1 n2 : to_string_int n1 = to_string_int n2 -> n1 = n2.
Proof.
  unfold to_string_int. intros Heq. apply DecimalZ.to_int_inj.
  assert (H : Some (Z.to_int n1) = Some (Z.to_int n2)).
  { rewrite <- !NilEmpty.isi. rewrite Heq. reflexivity. }
  injection H as H. exact H.
Qed.

Lemma sign_string_lacks_bracket neg : lacks "]" (sign_string neg) = true.
Proof. destruct neg; reflexivity. Qed.

Lemma six_digits_lack_bracket n : lacks "]" (six_digits n) = true.
Proof.
  unfold six_digits.
  pose proof (to_string_int_lacks_bracket (1000000 + n mod 1000000)) as H.
  destruct (to_string_int (1000000 + n mod 1000000)) as [| a s];
    [reflexivity |].
  simpl in H. apply andb_prop in H as [_ H]. exact H.
Qed.

Lemma to_string_double_lacks_bracket d : lacks "]" (to_string_double d) = true.
Proof.
  destruct d as [neg m e | neg | neg]; unfold to_string_double; cbv zeta;
    rewrite ?lacks_append, ?sign_string_lacks_bracket,
      ?to_string_int_lacks_bracket, ?six_digits_lack_bracket;
    reflexivity.
Qed.

(** A printed tree ends where it ends: whatever follows the text of a plain
    tree, the text determines the tree and what follows. *)
Lemma toString_delimited e1 :
  forall e2 r1 r2,
    plain e1 = true -> plain e2 = true ->
    toString e1 +:+ r1 = toString e2 +:+ r2 ->
    alike e1 e2 /\ r1 = r2.
Proof.
  induction e1 as [b1 | d1 | n1 | s1 | t1 a1
                  | l1 IHl r1' IHr | l1 IHl r1' IHr | l1 IHl r1' IHr
                  | l1 IHl r1' IHr | l1 IHl r1' IHr | l1 IHl r1' IHr
                  | l1 IHl r1' IHr | l1 IHl r1' IHr | l1 IHl r1' IHr
                  | c1 IHc | c1 IHc | c1 IHc];
    intros e2 r1 r2 P1 P2 Heq;
    destruct e2 as [b2 | d2 | n2 | s2 | t2 a2
                   | l2 r2' | l2 r2' | l2 r2' | l2 r2' | l2 r2' | l2 r2'
                   | l2 r2' | l2 r2' | l2 r2'
                   | c2 | c2 | c2];
    try (destruct b1); try (destruct b2);
    expose Heq; try discriminate Heq.
  all: cbn [plain alike] in *; strip Heq.
  - subst. split; reflexivity.
  - subst. split; reflexivity.
  - apply split_at_first in Heq as [Hd ->];
      auto using to_string_double_lacks_bracket.
  - apply split_at_first in Heq as [Hn ->];
      auto using to_string_int_lacks_bracket.
    apply to_string_int_inj in Hn as ->. split; reflexivity.
  - apply split_at_first in Heq as [-> ->]; auto.
  - apply andb_prop in P1 as [Pt1 Pa1]. apply andb_prop in P2 as [Pt2 Pa2].
    apply split_at_first in Heq as [-> Heq]; auto.
    apply split_at_first in Heq as [-> ->]; auto.
  - both_children IHl IHr P1 P2 Heq.
  - both_children IHl IHr P1 P2 Heq.
  - both_children IHl IHr P1 P2 Heq.
  - both_children IHl IHr P1 P2 Heq.
  - both_children IHl IHr P1 P2 Heq.
  - both_children IHl IHr P1 P2 Heq.
  - both_children IHl IHr P1 P2 Heq.
  - both_children IHl IHr P1 P2 Heq.
  - both_children IHl IHr P1 P2 Heq.
  - apply IHc in Heq as [Hc Heq]; auto. strip Heq. subst. auto.
  - apply IHc in Heq as [Hc Heq]; auto. strip Heq. subst. auto.
  - apply IHc in Heq as [Hc Heq]; auto. strip Heq. subst. auto.
Qed.

Lemma alike_without_double e1 :
  forall e2, no_double e1 = true -> alike e1 e2 -> e1 = e2.
Proof.
  induction e1; intros e2 Hno Halike; destruct e2; cbn in *;
    try contradiction; try discriminate Hno;
    repeat match goal with
      | H : _ /\ _ |- _ => destruct H
      | H : _ && _ = true |- _ => apply andb_prop in H as [? ?]
      end;
    subst; f_equal; auto.
Qed.

Lemma append_empty_r (s : string) : s +:+ "" = s.
Proof. induction s as [| a s IH]; simpl; [reflexivity | f_equal; exact IH]. Qed.

Lemma toString_shows_root e1 e2 :
  toString e1 = toString e2 -> same_root e1 e2 = true.
Proof.
  intros Heq.
  destruct e1 as [b1 | | | | | | | | | | | | | | | |];
    destruct e2 as [b2 | | | | | | | | | | | | | | | |];
    try reflexivity;
    try (destruct b1); try (destruct b2); expose Heq; discriminate Heq.
Qed.

(** C9, counterexample.  The text of a string literal and the names of an
    attribute reference are printed as they are, so two trees that differ in
    their nodes, or in where an underscore splits a name, print the same. *)
Lemma toString_is_not_injective :
  (string_then_bool <> string_then_string
   /\ toString string_then_bool = toString string_then_string)
  /\ (Identifier "l_l" "shipdate" <> Identifier "l" "l_shipdate"
      /\ toString (Identifier "l_l" "shipdate")
         = toString (Identifier "l" "l_shipdate")).
Proof.
  split; (split; [discriminate | reflexivity]).
Qed.

(** C9, amended.  Two trees that print the same have roots of the same
    class.  Among trees in which no string literal holds a closing bracket,
    no alias an underscore and no attribute name a closing bracket, two
    trees that print the same have the same nodes and values throughout, up
    to double literals that [std::to_string] prints the same; without
    double literals they are equal. *)
Theorem toString_injective_on_plain_trees :
  (forall e1 e2, toString e1 = toString e2 -> same_root e1 e2 = true)
  /\ (forall e1 e2,
      plain e1 = true -> plain e2 = true ->
      toString e1 = toString e2 ->
      alike e1 e2 /\ (no_double e1 = true -> e1 = e2)).
Proof.
  split; [exact toString_shows_root |].
  intros e1 e2 P1 P2 Heq.
  assert (Halike : alike e1 e2).
  { apply (toString_delimited e1 e2 "" "" P1 P2).
    rewrite !append_empty_r. exact Heq. }
  split; [exact Halike |].
  intros Hno. apply alike_without_double; assumption.
Qed.

(** * The properties at concrete trees *)

(** The order table aliased as [o]: a sum over its amount. *)
Example sum_over_orders :
  let e := SumOp (PlusOp (Identifier "o" "amount") (IntLiteral 1)) in
  typeCheck dated_orders [("Orders", "o")] e = mkOut doubleType []
  /\ isAggregate e = true
  /\ toString e = "sum(+ ([o_amount], int[1]))".
Proof. repeat split. Qed.

Example string_against_int :
  typeCheck ∅ [] (GtOp (StringLiteral "abc") (IntLiteral 5))
  = mkOut errType
      ["ERROR: Cannot compare incompatible types: left=string, right=int"].
Proof. reflexivity. Qed.

Example doubles_print_six_decimals :
  to_string_double (Finite true 5 (-1)) = "-2.500000"
  /\ to_string_double (Finite false 3 (-21)) = "0.000001"
  /\ to_string_int (-120) = "-120".
Proof. repeat split. Qed.

Lemma error_is_infectious_witness :
  (In PlusOp binary_nodes
   /\ value (typeCheck ∅ [] (NotOp (IntLiteral 5))) = errType
   /\ typeCheck ∅ [] (PlusOp (NotOp (IntLiteral 5)) (Identifier "x" "y"))
      = mkOut errType
          ["ERROR: NOT operator requires a boolean expression, but got type int";
           "ERROR: Table alias 'x' not found in query"])
  /\ (In SumOp unary_nodes
      /\ typeCheck ∅ [] (SumOp (Identifier "x" "y"))
         = mkOut errType ["ERROR: Table alias 'x' not found in query"])
  /\ value (typeCheck ∅ []
              (GtOp (IntLiteral 1) (SumOp (MinusOp (Identifier "x" "y") (IntLiteral 2)))))
     = errType.
Proof.
  assert (Hplus : In PlusOp binary_nodes) by (simpl; auto).
  assert (Hminus : In MinusOp binary_nodes) by (simpl; auto).
  assert (Hgt : In GtOp binary_nodes) by (simpl; auto 10).
  assert (Hsum : In SumOp unary_nodes) by (simpl; auto).
  split; [| split].
  - split; [exact Hplus |]. split; [reflexivity |].
    apply (proj1 (error_is_infectious ∅ []) PlusOp); [exact Hplus |].
    left. reflexivity.
  - split; [exact Hsum |].
    apply (proj1 (proj2 (error_is_infectious ∅ [])) SumOp); [exact Hsum |].
    reflexivity.
  - apply (proj2 (proj2 (error_is_infectious ∅ [])) (Identifier "x" "y")).
    + apply (subtree_right _ GtOp); [exact Hgt |].
      apply (subtree_child _ SumOp); [exact Hsum |].
      apply (subtree_left _ MinusOp); [exact Hminus |].
      apply subtree_refl.
    + reflexivity.
Defined.

Lemma arithmetic_rules_witness :
  value (typeCheck ∅ [] (IntLiteral 1)) <> errType
  /\ value (typeCheck ∅ [] (DoubleLiteral (Finite false 1 (-1)))) <> errType
  /\ value (typeCheck ∅ []
              (MinusOp (IntLiteral 1) (DoubleLiteral (Finite false 1 (-1)))))
     = doubleType
  /\ value (typeCheck ∅ []
              (DivideOp (IntLiteral 1) (DoubleLiteral (Finite false 1 (-1)))))
     = doubleType.
Proof.
  assert (Hl : value (typeCheck ∅ [] (IntLiteral 1)) <> errType)
    by (simpl; discriminate).
  assert (Hr : value (typeCheck ∅ [] (DoubleLiteral (Finite false 1 (-1))))
               <> errType) by (simpl; discriminate).
  split; [exact Hl |]. split; [exact Hr |].
  destruct (arithmetic_rules ∅ [] (IntLiteral 1)
              (DoubleLiteral (Finite false 1 (-1))) Hl Hr)
    as (_ & _ & _ & Hdouble & Hdivide & _).
  split.
  - apply Hdouble; [left | right | right]; reflexivity.
  - apply Hdivide; [left | right]; reflexivity.
Defined.

Lemma comparison_rules_witness :
  In NeqOp comparison_nodes
  /\ value (typeCheck ∅ [] (StringLiteral "abc")) <> errType
  /\ value (typeCheck ∅ [] (IntLiteral 5)) <> errType
  /\ value (typeCheck ∅ [] (NeqOp (StringLiteral "abc") (IntLiteral 5))) = errType
  /\ value (typeCheck ∅ [] (GtOp (StringLiteral "abc") (IntLiteral 5))) = errType.
Proof.
  assert (Hneq : In NeqOp comparison_nodes) by (simpl; auto).
  assert (Hgt : In GtOp comparison_nodes) by (simpl; auto).
  assert (Hl : value (typeCheck ∅ [] (StringLiteral "abc")) <> errType)
    by (simpl; discriminate).
  assert (Hr : value (typeCheck ∅ [] (IntLiteral 5)) <> errType)
    by (simpl; discriminate).
  split; [exact Hneq |]. split; [exact Hl |]. split; [exact Hr |].
  destruct (comparison_rules ∅ [] NeqOp (StringLiteral "abc") (IntLiteral 5)
              Hneq Hl Hr) as (Hstring & _ & Hsame).
  assert (Herr : value (typeCheck ∅ [] (NeqOp (StringLiteral "abc") (IntLiteral 5)))
                 = errType).
  { apply Hstring; [left; reflexivity |]. intros [_ Hint]. discriminate Hint. }
  split; [exact Herr |].
  rewrite (Hsame GtOp Hgt). exact Herr.
Defined.

Lemma aggregate_rules_witness :
  numeric (value (typeCheck ∅ [] (IntLiteral 3)))
  /\ value (typeCheck ∅ [] (SumOp (IntLiteral 3))) = intType
  /\ value (typeCheck ∅ [] (AvgOp (IntLiteral 3))) = doubleType
  /\ value (typeCheck ∅ [] (SumOp (StringLiteral "abc"))) = errType.
Proof.
  assert (Hnum : numeric (value (typeCheck ∅ [] (IntLiteral 3))))
    by (left; reflexivity).
  split; [exact Hnum |].
  destruct (aggregate_rules ∅ [] (IntLiteral 3)) as (_ & Hint & _).
  destruct (Hint Hnum) as [Hsum Havg].
  split; [exact Hsum |]. split; [exact Havg |].
  destruct (aggregate_rules ∅ [] (StringLiteral "abc")) as (Hbad & _).
  apply Hbad. left. reflexivity.
Defined.

Lemma nested_aggregates_witness :
  numeric (value (typeCheck dated_orders [("Orders", "o")]
                    (Identifier "o" "amount")))
  /\ typeCheck dated_orders [("Orders", "o")]
       (SumOp (SumOp (Identifier "o" "amount")))
     = mkOut doubleType []
  /\ typeCheck dated_orders [("Orders", "o")]
       (AvgOp (SumOp (Identifier "o" "amount")))
     = mkOut doubleType [].
Proof.
  assert (Hnum : numeric (value (typeCheck dated_orders [("Orders", "o")]
                                   (Identifier "o" "amount"))))
    by (right; reflexivity).
  split; [exact Hnum |].
  destruct (nested_aggregates dated_orders [("Orders", "o")]
              (Identifier "o" "amount") Hnum) as (Hsum & Havg & _).
  split; [exact Hsum | exact Havg].
Defined.

Lemma comparison_and_boolean_defaults_witness :
  In GtOp (comparison_nodes ++ [OrOp])
  /\ isAggregate (SumOp (Identifier "o" "amount")) = true
  /\ isAggregate (GtOp (SumOp (Identifier "o" "amount")) (IntLiteral 5)) = false
  /\ getReferencedAttributes
       (GtOp (SumOp (Identifier "o" "amount")) (Identifier "c" "b")) ∅ = ∅.
Proof.
  assert (Hgt : In GtOp (comparison_nodes ++ [OrOp])) by (simpl; auto).
  split; [exact Hgt |]. split; [reflexivity |].
  split.
  - apply (proj1 comparison_and_boolean_defaults GtOp _ _ ∅ Hgt).
  - apply (proj1 comparison_and_boolean_defaults GtOp _ _ ∅ Hgt).
Defined.

Lemma identifier_resolution_witness :
  (forall p, In p [("Customers", "c")] -> p.2 <> "o")
  /\ typeCheck dated_orders [("Customers", "c")] (Identifier "o" "amount")
     = mkOut errType ["ERROR: Table alias 'o' not found in query"]
  /\ dated_orders !! "Orders"
     = Some (mkTable [("amount", mkAttType false "double");
                      ("placed", mkAttType false "date")])
  /\ typeCheck dated_orders
       ([("Customers", "c")] ++ ("Orders", "o") :: [("Lineitem", "o")])
       (Identifier "o" "amount")
     = mkOut doubleType [].
Proof.
  assert (Hno : forall p, In p [("Customers", "c")] -> p.2 <> "o").
  { intros p [<- | []]. simpl. discriminate. }
  assert (Htable : dated_orders !! "Orders"
                   = Some (mkTable [("amount", mkAttType false "double");
                                    ("placed", mkAttType false "date")]))
    by reflexivity.
  split; [exact Hno |].
  destruct (identifier_resolution dated_orders "o" "amount")
    as [Hnone Hfirst].
  split; [exact (Hnone _ Hno) |].
  split; [exact Htable |].
  destruct (Hfirst [("Customers", "c")] "Orders" [("Lineitem", "o")] Hno)
    as (_ & _ & Hfound).
  apply (Hfound _ 0 (mkAttType false "double") Htable). reflexivity.
Defined.

Lemma references_beneath_arithmetic_witness :
  arithmetic_tree false
    (PlusOp (Identifier "o" "a") (TimesOp (IntLiteral 2) (Identifier "c" "b")))
  = true
  /\ attribute_references
       (PlusOp (Identifier "o" "a") (TimesOp (IntLiteral 2) (Identifier "c" "b")))
     = {[ ("o", "a"); ("c", "b") ]}
  /\ getReferencedAttributes
       (PlusOp (Identifier "o" "a") (TimesOp (IntLiteral 2) (Identifier "c" "b")))
       ∅
     = {[ ("o", "a"); ("c", "b") ]}.
Proof.
  assert (Harith : arithmetic_tree false
            (PlusOp (Identifier "o" "a")
               (TimesOp (IntLiteral 2) (Identifier "c" "b"))) = true)
    by reflexivity.
  assert (Hrefs : attribute_references
            (PlusOp (Identifier "o" "a")
               (TimesOp (IntLiteral 2) (Identifier "c" "b")))
            = {[ ("o", "a"); ("c", "b") ]}) by (vm_compute; reflexivity).
  split; [exact Harith |]. split; [exact Hrefs |].
  exact (proj1 (proj2 references_beneath_arithmetic) _ Harith Hrefs).
Defined.

Lemma toString_injective_on_plain_trees_witness :
  plain (DoubleLiteral (Finite false 1 0)) = true
  /\ plain (DoubleLiteral (Finite false 2 (-1))) = true
  /\ toString (DoubleLiteral (Finite false 1 0))
     = toString (DoubleLiteral (Finite false 2 (-1)))
  /\ alike (DoubleLiteral (Finite false 1 0)) (DoubleLiteral (Finite false 2 (-1)))
  /\ same_root (DoubleLiteral (Finite false 1 0))
       (DoubleLiteral (Finite false 2 (-1))) = true.
Proof.
  assert (Hprint : toString (DoubleLiteral (Finite false 1 0))
                   = toString (DoubleLiteral (Finite false 2 (-1))))
    by reflexivity.
  split; [reflexivity |]. split; [reflexivity |]. split; [exact Hprint |].
  split.
  - exact (proj1 (proj2 toString_injective_on_plain_trees
                    (DoubleLiteral (Finite false 1 0))
                    (DoubleLiteral (Finite false 2 (-1)))
                    eq_refl eq_refl Hprint)).
  - exact (proj1 toString_injective_on_plain_trees _ _ Hprint).
Defined.

(** * Further properties of the type checker *)

(** Induction over trees by family of node: leaves, binary nodes and unary
    nodes. *)
Lemma ExprTree_by_family (P : ExprTree -> Prop) :
  (forall e, children e = [] -> P e) ->
  (forall node lhs rhs, In node binary_nodes -> P lhs -> P rhs -> P (node lhs rhs)) ->
  (forall node child, In node unary_nodes -> P child -> P (node child)) ->
  forall e, P e.
Proof.
  intros Hleaf Hbinary Hunary.
  induction e;
    match goal with
    | |- P (?node ?lhs ?rhs) =>
        apply (Hbinary node); [cbn; auto 12 | assumption | assumption]
    | |- P (?node ?child) =>
        first [ apply (Hunary node); [cbn; auto | assumption]
              | apply Hleaf; reflexivity ]
    end.
Qed.

Lemma ReturnType_error_or_not (t : ReturnType) : t = errType \/ t <> errType.
Proof. destruct t; auto; right; discriminate. Qed.



Section Messages.

Variable allTables : gmap string MyDB_Table.
Variable tablesToProcess : list (string * string).

Abbreviation tc := (typeCheck allTables tablesToProcess).

Lemma binary_success_prints_nothing node lhs rhs :
  In node binary_nodes ->
  value (tc lhs) <> errType -> value (tc rhs) <> errType ->
  value (tc (node lhs rhs)) <> errType ->
  printed (tc (node lhs rhs)) = printed (tc lhs) ++ printed (tc rhs).
Proof.
  intros Hnode. each_node Hnode; run_children lhs rhs; intros Hl Hr;
    destruct leftType, rightType; try congruence; cbn;
    rewrite ?app_nil_r; congruence.
Qed.

Lemma unary_success_prints_nothing node child :
  In node unary_nodes ->
  value (tc child) <> errType ->
  value (tc (node child)) <> errType ->
  printed (tc (node child)) = printed (tc child).
Proof.
  intros Hnode. each_node Hnode; run_child child; intros Hc;
    destruct childType; try congruence; cbn; rewrite ?app_nil_r; congruence.
Qed.

Lemma binary_children_of_success node lhs rhs :
  In node binary_nodes ->
  value (tc (node lhs rhs)) <> errType ->
  value (tc lhs) <> errType /\ value (tc rhs) <> errType.
Proof.
  intros Hnode Hok.
  split; intros Herr; apply Hok;
    rewrite (binary_node_propagates _ _ node) by auto; reflexivity.
Qed.

Lemma unary_child_of_success node child :
  In node unary_nodes ->
  value (tc (node child)) <> errType -> value (tc child) <> errType.
Proof.
  intros Hnode Hok Herr. apply Hok.
  rewrite (unary_node_propagates _ _ node) by auto. reflexivity.
Qed.

(** X1. A tree that type-checks to anything but [errType] prints nothing:
    no node writes to [cout] on its way to a result. *)
Theorem success_prints_nothing e :
  value (typeCheck allTables tablesToProcess e) <> errType ->
  printed (typeCheck allTables tablesToProcess e) = [].
Proof.
  induction e as [e Hleaf | node lhs rhs Hnode IHl IHr | node child Hnode IHc]
    using ExprTree_by_family; intros Hok.
  - destruct e; try discriminate Hleaf; try reflexivity.
    revert Hok. cbn. unfold Identifier_typeCheck.
    destruct (findAlias tablesToProcess tableName) as [actual |];
      [| intros []; reflexivity].
    destruct (allTables !! actual) as [table |]; [| intros []; reflexivity].
    destruct (getAttByName (getSchema table) attName) as [attInfo |];
      [| intros []; reflexivity].
    reflexivity.
  - destruct (binary_children_of_success node lhs rhs Hnode Hok) as [Hl Hr].
    rewrite binary_success_prints_nothing by assumption.
    rewrite IHl, IHr by assumption. reflexivity.
  - pose proof (unary_child_of_success node child Hnode Hok) as Hc.
    rewrite unary_success_prints_nothing by assumption.
    apply IHc. exact Hc.
Qed.






(** X4. The only error without a message: a tree that type-checks to
    [errType] and prints nothing holds an attribute reference that resolves
    to an attribute of an unrecognized type. *)
Theorem silent_error_is_unrecognized_type e :
  value (tc e) = errType -> printed (tc e) = [] ->
  exists s, subtree s e /\ unrecognized_reference allTables tablesToProcess s.
Proof.
  induction e as [e Hleaf | node lhs rhs Hnode IHl IHr | node child Hnode IHc]
    using ExprTree_by_family; intros Herr Hsilent.
  - destruct e; try discriminate Hleaf; try discriminate Herr.
    destruct (identifier_failure_prints allTables tablesToProcess
                tableName attName Herr)
      as [[msg Hmsg] | (actual & table & i & attType & Ha & Ht & Hatt & Hty & _)].
    + rewrite Hmsg in Hsilent. discriminate Hsilent.
    + exists (Identifier tableName attName). split; [apply subtree_refl |].
      exists tableName, attName, actual, table, i, attType. auto.
  - destruct (ReturnType_error_or_not (value (tc lhs))) as [Hl | Hl].
    { rewrite binary_node_propagates in Hsilent by auto. cbn in Hsilent.
      apply app_eq_nil in Hsilent as [Hsl _].
      destruct (IHl Hl Hsl) as (s & Hs & Hun). exists s.
      split; [apply subtree_left; assumption | exact Hun]. }
    destruct (ReturnType_error_or_not (value (tc rhs))) as [Hr | Hr].
    { rewrite binary_node_propagates in Hsilent by auto. cbn in Hsilent.
      apply app_eq_nil in Hsilent as [_ Hsr].
      destruct (IHr Hr Hsr) as (s & Hs & Hun). exists s.
      split; [apply subtree_right; assumption | exact Hun]. }
    destruct (binary_failure_prints allTables tablesToProcess
                node lhs rhs Hnode Hl Hr Herr) as [msg Hmsg].
    rewrite Hmsg in Hsilent.
    apply app_eq_nil in Hsilent as [_ Hsilent].
    apply app_eq_nil in Hsilent as [_ Hsilent]. discriminate Hsilent.
  - destruct (ReturnType_error_or_not (value (tc child))) as [Hc | Hc].
    { rewrite unary_node_propagates in Hsilent by auto. cbn in Hsilent.
      destruct (IHc Hc Hsilent) as (s & Hs & Hun). exists s.
      split; [apply subtree_child; assumption | exact Hun]. }
    destruct (unary_failure_prints allTables tablesToProcess
                node child Hnode Hc Herr) as [msg Hmsg].
    rewrite Hmsg in Hsilent.
    apply app_eq_nil in Hsilent as [_ Hsilent]. discriminate Hsilent.
Qed.

End Messages.

(** ** The catalog and the bindings *)

(** A node reads the catalog and the bindings only through its children. *)
Lemma binary_node_congruence node lhs rhs
    (tables1 tables2 : gmap string MyDB_Table)
    (bindings1 bindings2 : list (string * string)) :
  In node binary_nodes ->
  typeCheck tables1 bindings1 lhs = typeCheck tables2 bindings2 lhs ->
  typeCheck tables1 bindings1 rhs = typeCheck tables2 bindings2 rhs ->
  typeCheck tables1 bindings1 (node lhs rhs)
  = typeCheck tables2 bindings2 (node lhs rhs).
Proof.
  intros Hnode Hl Hr. each_node Hnode; cbn [typeCheck]; rewrite Hl, Hr;
    reflexivity.
Qed.

Lemma unary_node_congruence node child
    (tables1 tables2 : gmap string MyDB_Table)
    (bindings1 bindings2 : list (string * string)) :
  In node unary_nodes ->
  typeCheck tables1 bindings1 child = typeCheck tables2 bindings2 child ->
  typeCheck tables1 bindings1 (node child)
  = typeCheck tables2 bindings2 (node child).
Proof.
  intros Hnode Hc. each_node Hnode; cbn [typeCheck]; rewrite Hc; reflexivity.
Qed.

Lemma no_identifier_of_binary node lhs rhs :
  In node binary_nodes ->
  no_identifier (node lhs rhs) = no_identifier lhs && no_identifier rhs.
Proof. intros Hnode. each_node Hnode; reflexivity. Qed.

Lemma no_identifier_of_unary node child :
  In node unary_nodes -> no_identifier (node child) = no_identifier child.
Proof. intros Hnode. each_node Hnode; reflexivity. Qed.

(** X5. Only attribute references read the catalog and the bindings: a
    tree without one type-checks the same, messages included, under any two
    catalogs and any two lists of bindings. *)
Theorem closed_tree_ignores_catalog e
    (tables1 tables2 : gmap string MyDB_Table)
    (bindings1 bindings2 : list (string * string)) :
  no_identifier e = true ->
  typeCheck tables1 bindings1 e = typeCheck tables2 bindings2 e.
Proof.
  induction e as [e Hleaf | node lhs rhs Hnode IHl IHr | node child Hnode IHc]
    using ExprTree_by_family; intros Hclosed.
  - destruct e; try discriminate Hleaf; try discriminate Hclosed; reflexivity.
  - rewrite no_identifier_of_binary in Hclosed by exact Hnode.
    apply andb_prop in Hclosed as [Hl Hr].
    apply binary_node_congruence; auto.
  - rewrite no_identifier_of_unary in Hclosed by exact Hnode.
    apply unary_node_congruence; auto.
Qed.

Lemma findAlias_app bindings more alias tableName :
  findAlias bindings alias = Some tableName ->
  findAlias (bindings ++ more) alias = Some tableName.
Proof.
  induction bindings as [| p rest IH]; cbn; [discriminate |].
  destruct (String.eqb p.2 alias); [trivial | exact IH].
Qed.

(** X6. A tree that type-checks without error keeps its result when tables
    are added to the catalog and when bindings are added after the given
    ones. *)
Theorem well_typed_tree_survives_extension e
    (allTables moreTables : gmap string MyDB_Table)
    (tablesToProcess more : list (string * string)) :
  allTables ⊆ moreTables ->
  value (typeCheck allTables tablesToProcess e) <> errType ->
  typeCheck moreTables (tablesToProcess ++ more) e
  = typeCheck allTables tablesToProcess e.
Proof.
  intros Hsub.
  induction e as [e Hleaf | node lhs rhs Hnode IHl IHr | node child Hnode IHc]
    using ExprTree_by_family; intros Hok.
  - destruct e; try discriminate Hleaf; try reflexivity.
    revert Hok. cbn. unfold Identifier_typeCheck.
    destruct (findAlias tablesToProcess tableName) as [actual |] eqn:Halias;
      [| intros []; reflexivity].
    rewrite (findAlias_app _ more _ _ Halias).
    destruct (allTables !! actual) as [table |] eqn:Htable;
      [| intros []; reflexivity].
    rewrite (lookup_weaken _ _ _ _ Htable Hsub). reflexivity.
  - destruct (binary_children_of_success _ _ node lhs rhs Hnode Hok) as [Hl Hr].
    apply binary_node_congruence; auto.
  - pose proof (unary_child_of_success _ _ node child Hnode Hok) as Hc.
    apply unary_node_congruence; auto.
Qed.

(** ** The rules of the operators *)

Section Rules.

Variable allTables : gmap string MyDB_Table.
Variable tablesToProcess : list (string * string).

Abbreviation tc := (typeCheck allTables tablesToProcess).

(** X7. The type of a binary node does not depend on the order of its
    operands. *)
Theorem operand_order_is_irrelevant node lhs rhs :
  In node binary_nodes ->
  value (tc (node lhs rhs)) = value (tc (node rhs lhs)).
Proof.
  intros Hnode. each_node Hnode; run_children lhs rhs;
    destruct leftType, rightType; reflexivity.
Qed.

(** X8. The type of a node is decided by the types of its children alone:
    replacing the children by trees of the same types leaves it
    unchanged. *)
Theorem type_decided_by_child_types :
  (forall node lhs rhs lhs' rhs',
      In node binary_nodes ->
      value (tc lhs) = value (tc lhs') -> value (tc rhs) = value (tc rhs') ->
      value (tc (node lhs rhs)) = value (tc (node lhs' rhs')))
  /\ (forall node child child',
      In node unary_nodes ->
      value (tc child) = value (tc child') ->
      value (tc (node child)) = value (tc (node child'))).
Proof.
  split.
  - intros node lhs rhs lhs' rhs' Hnode Hl Hr.
    each_node Hnode; cbn [typeCheck]; unfold mbind, Out_bind; cbn [value];
      rewrite Hl, Hr; reflexivity.
  - intros node child child' Hnode Hc.
    each_node Hnode; cbn [typeCheck]; unfold mbind, Out_bind; cbn [value];
      rewrite Hc; destruct (value (tc child')); reflexivity.
Qed.

(** X9. What a node never returns.  A comparison, [||] and [!] return bool
    or an error; minus and times return int, double or an error; divide and
    avg return double or an error; sum returns int, double or an error;
    plus never returns bool. *)
Theorem result_types_by_node :
  (forall node lhs rhs,
      In node (comparison_nodes ++ [OrOp]) ->
      In (value (tc (node lhs rhs))) [boolType; errType])
  /\ (forall child, In (value (tc (NotOp child))) [boolType; errType])
  /\ (forall node lhs rhs,
      In node [MinusOp; TimesOp] ->
      In (value (tc (node lhs rhs))) [intType; doubleType; errType])
  /\ (forall lhs rhs, In (value (tc (DivideOp lhs rhs))) [doubleType; errType])
  /\ (forall lhs rhs, value (tc (PlusOp lhs rhs)) <> boolType)
  /\ (forall child,
      In (value (tc (SumOp child))) [intType; doubleType; errType])
  /\ (forall child, In (value (tc (AvgOp child))) [doubleType; errType]).
Proof.
  repeat split.
  - intros node lhs rhs Hnode. each_node Hnode; run_children lhs rhs;
      destruct leftType, rightType; cbn; auto.
  - intros child. run_child child. destruct childType; cbn; auto.
  - intros node lhs rhs Hnode. each_node Hnode; run_children lhs rhs;
      destruct leftType, rightType; cbn; auto.
  - intros lhs rhs. run_children lhs rhs.
    destruct leftType, rightType; cbn; auto.
  - intros lhs rhs. run_children lhs rhs.
    destruct leftType, rightType; cbn; discriminate.
  - intros child. run_child child. destruct childType; cbn; auto.
  - intros child. run_child child. destruct childType; cbn; auto.
Qed.

(** X10. The boolean nodes.  [||] is bool when both operands are bool and
    [!] is bool when its operand is bool; on anything else they are an
    error, and an operand that is not itself an error then costs exactly one
    message. *)
Theorem boolean_rules :
  (forall lhs rhs,
      (value (tc lhs) = boolType /\ value (tc rhs) = boolType ->
       tc (OrOp lhs rhs)
       = mkOut boolType (printed (tc lhs) ++ printed (tc rhs)))
      /\ (~ (value (tc lhs) = boolType /\ value (tc rhs) = boolType) ->
          value (tc (OrOp lhs rhs)) = errType)
      /\ (value (tc lhs) <> errType -> value (tc rhs) <> errType ->
          ~ (value (tc lhs) = boolType /\ value (tc rhs) = boolType) ->
          printed (tc (OrOp lhs rhs))
          = printed (tc lhs) ++ printed (tc rhs)
            ++ ["ERROR: OR operator requires boolean operands, but got "
                +:+ typeToString (value (tc lhs)) +:+ " and "
                +:+ typeToString (value (tc rhs)) +:+ "."]))
  /\ (forall child,
      (value (tc child) = boolType ->
       tc (NotOp child) = mkOut boolType (printed (tc child)))
      /\ (value (tc child) <> boolType -> value (tc (NotOp child)) = errType)
      /\ (value (tc child) <> errType -> value (tc child) <> boolType ->
          printed (tc (NotOp child))
          = printed (tc child)
            ++ ["ERROR: NOT operator requires a boolean expression, but got type "
                +:+ typeToString (value (tc child))])).
Proof.
  split.
  - intros lhs rhs. run_children lhs rhs.
    destruct leftType, rightType; cbn; rewrite ?app_nil_r;
      repeat split; intros; try reflexivity; try congruence;
      exfalso; intuition congruence.
  - intros child. run_child child.
    destruct childType; cbn; rewrite ?app_nil_r;
      repeat split; intros; try reflexivity; congruence.
Qed.

End Rules.

(** ** Resolving an alias *)

(** X11. [findAlias] finds the first binding of the alias and nothing
    else: it answers a table exactly when the bindings split into a part
    without the alias, the pair of that table with the alias, and a rest;
    and it finds nothing exactly when no binding carries the alias. *)
Theorem findAlias_finds_first bindings alias :
  (forall tableName,
      findAlias bindings alias = Some tableName
      <-> exists before after,
            bindings = before ++ (tableName, alias) :: after
            /\ forall p, In p before -> p.2 <> alias)
  /\ (findAlias bindings alias = None
      <-> forall p, In p bindings -> p.2 <> alias).
Proof.
  split.
  - intros tableName. split.
    + induction bindings as [| [t a] rest IH]; cbn; [discriminate |].
      destruct (String.eqb_spec a alias) as [-> | Hne].
      * intros [= ->]. exists [], rest. split; [reflexivity | intros p []].
      * intros Hfound. destruct (IH Hfound) as (before & after & -> & Hno).
        exists ((t, a) :: before), after. split; [reflexivity |].
        intros p [<- | Hp]; [exact Hne | exact (Hno p Hp)].
    + intros (before & after & -> & Hno). apply findAlias_first. exact Hno.
  - split.
    + induction bindings as [| [t a] rest IH]; cbn; [intros _ p [] |].
      destruct (String.eqb_spec a alias) as [-> | Hne]; [discriminate |].
      intros Hnone p [<- | Hp]; [exact Hne | exact (IH Hnone p Hp)].
    + apply findAlias_none.
Qed.

(** ** Aggregates *)

(** X12. [isAggregate] sees an aggregate through arithmetic and through
    nothing else: it is true exactly when a sum or avg node is the tree
    itself or is reached from the root through arithmetic nodes only. *)
Theorem isAggregate_through_arithmetic e :
  isAggregate e = true
  <-> exists node child,
        In node aggregate_nodes /\ arithmetic_path (node child) e.
Proof.
  split.
  - induction e as [| | | | | lhs IHl rhs IHr | lhs IHl rhs IHr
                   | lhs IHl rhs IHr | lhs IHl rhs IHr
                   | | | | | | | child _ | child _];
      cbn; intros Hagg; try discriminate Hagg.
    1-4: apply orb_prop in Hagg as [Hagg | Hagg];
      [ destruct (IHl Hagg) as (node & child & Hnode & Hpath);
        exists node, child; split; [exact Hnode |];
        apply arithmetic_path_left; [cbn; auto | exact Hpath]
      | destruct (IHr Hagg) as (node & child & Hnode & Hpath);
        exists node, child; split; [exact Hnode |];
        apply arithmetic_path_right; [cbn; auto | exact Hpath] ].
    + exists SumOp, child. split; [cbn; auto | apply arithmetic_path_here].
    + exists AvgOp, child. split; [cbn; auto | apply arithmetic_path_here].
  - intros (node & child & Hnode & Hpath).
    induction Hpath as [| op lhs rhs Hop _ IH | op lhs rhs Hop _ IH].
    + each_node Hnode; reflexivity.
    + each_node Hop; cbn; rewrite IH; reflexivity.
    + each_node Hop; cbn; rewrite IH; apply orb_true_r.
Qed.

(** ** The collected set *)

Lemma getReferencedAttributes_adds e :
  forall atts,
    getReferencedAttributes e atts = getReferencedAttributes e ∅ ∪ atts.
Proof.
  induction e as [| | | | | lhs IHl rhs IHr | lhs IHl rhs IHr
                 | lhs IHl rhs IHr | lhs IHl rhs IHr
                 | | | | | | | |];
    intros atts; cbn;
    try (symmetry; apply (left_id_L ∅ (∪)));
    try (rewrite (right_id_L ∅ (∪)); reflexivity).
  all: rewrite (IHr (getReferencedAttributes lhs atts)), (IHl atts),
         (IHr (getReferencedAttributes lhs ∅));
       rewrite (assoc_L (∪)); reflexivity.
Qed.

Lemma getReferencedAttributes_sound e :
  getReferencedAttributes e ∅ ⊆ attribute_references e.
Proof.
  induction e as [| | | | | lhs IHl rhs IHr | lhs IHl rhs IHr
                 | lhs IHl rhs IHr | lhs IHl rhs IHr
                 | | | | | | | |];
    cbn; try apply empty_subseteq;
    try (rewrite (right_id_L ∅ (∪)); reflexivity).
  all: rewrite (getReferencedAttributes_adds rhs);
       rewrite (comm_L (∪)); apply union_mono; assumption.
Qed.

(** X13. Collecting into a set.  What a tree adds does not depend on the
    set it is handed, nothing is ever removed from that set, only attribute
    references of the tree are added, and collecting a second time changes
    nothing. *)
Theorem collecting_is_additive e atts :
  getReferencedAttributes e atts = getReferencedAttributes e ∅ ∪ atts
  /\ atts ⊆ getReferencedAttributes e atts
  /\ getReferencedAttributes e atts ⊆ attribute_references e ∪ atts
  /\ getReferencedAttributes e (getReferencedAttributes e atts)
     = getReferencedAttributes e atts.
Proof.
  split; [apply getReferencedAttributes_adds |].
  split; [rewrite getReferencedAttributes_adds; apply union_subseteq_r |].
  split.
  - rewrite getReferencedAttributes_adds.
    apply union_mono_r. apply getReferencedAttributes_sound.
  - rewrite (getReferencedAttributes_adds e (getReferencedAttributes e atts)).
    rewrite (getReferencedAttributes_adds e atts).
    rewrite (assoc_L (∪)), (idemp_L (∪)). reflexivity.
Qed.

(** ** Construction and names *)

Lemma drop_last_of_appended s c : drop_last (s +:+ String c "") = s.
Proof.
  induction s as [| a s IH]; [reflexivity |].
  simpl. rewrite IH. destruct s; reflexivity.
Qed.

(** X14. The constructor of a string literal removes exactly the first and
    the last character of its token, whatever they are and whatever lies
    between them: the literal holds the text between, and prints it between
    square brackets. *)
Theorem StringLiteral_keeps_the_inside first last inside :
  StringLiteral_of_token (String first (inside +:+ String last ""))
  = StringLiteral inside
  /\ toString (StringLiteral_of_token (String first (inside +:+ String last "")))
     = "string[" +:+ inside +:+ "]".
Proof.
  assert (Hctor : StringLiteral_of_token
                    (String first (inside +:+ String last ""))
                  = StringLiteral inside).
  { unfold StringLiteral_of_token.
    change (String first (inside +:+ String last ""))
      with (String first inside +:+ String last "").
    rewrite drop_last_of_appended. reflexivity. }
  rewrite Hctor. split; reflexivity.
Qed.

(** X15. [typeToString] names the five types apart: two types with the
    same name are the same type. *)
Theorem typeToString_is_injective a b :
  typeToString a = typeToString b -> a = b.
Proof.
  destruct a, b; cbn; intros Heq; first [reflexivity | discriminate Heq].
Qed.

(** ** The form of the messages and the order of the bindings *)

(** X16. Every message printed by the type checker starts with
    ["ERROR: "]. *)
Theorem every_message_is_an_error_line
    (allTables : gmap string MyDB_Table)
    (tablesToProcess : list (string * string)) e :
  Forall (fun msg => String.prefix "ERROR: " msg = true)
    (printed (typeCheck allTables tablesToProcess e)).
Proof.
  induction e as [e Hleaf | node lhs rhs Hnode IHl IHr | node child Hnode IHc]
    using ExprTree_by_family.
  - destruct e; try discriminate Hleaf; try apply Forall_nil_2.
    cbn. unfold Identifier_typeCheck.
    destruct (findAlias tablesToProcess tableName) as [actual |];
      [| repeat constructor].
    destruct (allTables !! actual) as [table |]; [| repeat constructor].
    destruct (getAttByName (getSchema table) attName) as [attInfo |];
      repeat constructor.
  - revert IHl IHr. each_node Hnode; run_children lhs rhs; intros IHl IHr;
      destruct leftType, rightType; cbn;
      rewrite ?Forall_app; repeat split; try assumption;
      repeat constructor.
  - revert IHc. each_node Hnode; run_child child; intros IHc;
      destruct childType; cbn;
      rewrite ?Forall_app; repeat split; try assumption;
      repeat constructor.
Qed.

Lemma findAlias_in bindings alias tableName :
  findAlias bindings alias = Some tableName -> (tableName, alias) ∈ bindings.
Proof.
  induction bindings as [| [t a] rest IH]; cbn; [discriminate |].
  destruct (String.eqb_spec a alias) as [-> | _].
  - intros [= ->]. apply list_elem_of_here.
  - intros Hfound. apply list_elem_of_further. exact (IH Hfound).
Qed.

Lemma findAlias_of_distinct bindings alias tableName :
  NoDup bindings.*2 ->
  (tableName, alias) ∈ bindings ->
  findAlias bindings alias = Some tableName.
Proof.
  induction bindings as [| [t a] rest IH]; cbn; intros Hdistinct Hin.
  - apply not_elem_of_nil in Hin as [].
  - apply NoDup_cons in Hdistinct as [Hfresh Hdistinct].
    apply elem_of_cons in Hin as [[= -> ->] | Hin].
    + rewrite String.eqb_refl. reflexivity.
    + destruct (String.eqb_spec a alias) as [-> | _]; [| auto].
      exfalso. apply Hfresh.
      apply (list_elem_of_fmap_2 snd rest (tableName, alias)). exact Hin.
Qed.

Lemma findAlias_permutation bindings bindings' alias :
  NoDup bindings.*2 -> bindings ≡ₚ bindings' ->
  findAlias bindings alias = findAlias bindings' alias.
Proof.
  intros Hdistinct Hperm.
  assert (Hdistinct' : NoDup bindings'.*2) by (rewrite <- Hperm; exact Hdistinct).
  destruct (findAlias bindings alias) as [t |] eqn:Hfound.
  - symmetry. apply findAlias_of_distinct; [exact Hdistinct' |].
    rewrite <- Hperm. apply findAlias_in. exact Hfound.
  - destruct (findAlias bindings' alias) as [t' |] eqn:Hfound'; [| reflexivity].
    apply findAlias_in in Hfound'. rewrite <- Hperm in Hfound'.
    apply findAlias_of_distinct in Hfound'; [| exact Hdistinct]. congruence.
Qed.

(** X17. When no alias is bound twice, the order of the bindings does not
    matter: the type checker gives the same result and the same messages on
    any rearrangement of them. *)
Theorem binding_order_is_irrelevant
    (allTables : gmap string MyDB_Table)
    (bindings bindings' : list (string * string)) e :
  NoDup bindings.*2 -> bindings ≡ₚ bindings' ->
  typeCheck allTables bindings e = typeCheck allTables bindings' e.
Proof.
  intros Hdistinct Hperm.
  induction e as [e Hleaf | node lhs rhs Hnode IHl IHr | node child Hnode IHc]
    using ExprTree_by_family.
  - destruct e; try discriminate Hleaf; try reflexivity.
    cbn. unfold Identifier_typeCheck.
    rewrite (findAlias_permutation bindings bindings' tableName Hdistinct Hperm).
    reflexivity.
  - apply binary_node_congruence; assumption.
  - apply unary_node_congruence; assumption.
Qed.

(** * The further properties at concrete trees *)

(** The catalog with a second table. *)
Lemma dated_orders_extended :
  dated_orders
  ⊆ <["Customers" := mkTable [("name", mkAttType false "string")]]> dated_orders.
Proof. apply insert_subseteq. reflexivity. Defined.

Lemma success_prints_nothing_witness :
  value (typeCheck dated_orders [("Orders", "o")]
           (GtOp (SumOp (Identifier "o" "amount")) (IntLiteral 5))) <> errType
  /\ printed (typeCheck dated_orders [("Orders", "o")]
                (GtOp (SumOp (Identifier "o" "amount")) (IntLiteral 5))) = [].
Proof.
  assert (Hok : value (typeCheck dated_orders [("Orders", "o")]
                         (GtOp (SumOp (Identifier "o" "amount")) (IntLiteral 5)))
                <> errType) by (vm_compute; discriminate).
  split; [exact Hok |].
  exact (success_prints_nothing dated_orders [("Orders", "o")] _ Hok).
Defined.


Lemma silent_error_is_unrecognized_type_witness :
  value (typeCheck dated_orders [("Orders", "o")]
           (SumOp (Identifier "o" "placed"))) = errType
  /\ printed (typeCheck dated_orders [("Orders", "o")]
                (SumOp (Identifier "o" "placed"))) = []
  /\ exists s,
       subtree s (SumOp (Identifier "o" "placed"))
       /\ unrecognized_reference dated_orders [("Orders", "o")] s.
Proof.
  assert (Herr : value (typeCheck dated_orders [("Orders", "o")]
                          (SumOp (Identifier "o" "placed"))) = errType)
    by reflexivity.
  assert (Hsilent : printed (typeCheck dated_orders [("Orders", "o")]
                               (SumOp (Identifier "o" "placed"))) = [])
    by reflexivity.
  split; [exact Herr |]. split; [exact Hsilent |].
  exact (silent_error_is_unrecognized_type dated_orders [("Orders", "o")]
           _ Herr Hsilent).
Defined.

Lemma closed_tree_ignores_catalog_witness :
  no_identifier (OrOp (NotOp (IntLiteral 5)) (BoolLiteral true)) = true
  /\ typeCheck ∅ [] (OrOp (NotOp (IntLiteral 5)) (BoolLiteral true))
     = typeCheck dated_orders [("Orders", "o")]
         (OrOp (NotOp (IntLiteral 5)) (BoolLiteral true)).
Proof.
  split; [reflexivity |].
  exact (closed_tree_ignores_catalog
           (OrOp (NotOp (IntLiteral 5)) (BoolLiteral true))
           ∅ dated_orders [] [("Orders", "o")] eq_refl).
Defined.

Lemma well_typed_tree_survives_extension_witness :
  value (typeCheck dated_orders [("Orders", "o")]
           (TimesOp (Identifier "o" "amount") (IntLiteral 2))) <> errType
  /\ typeCheck
       (<["Customers" := mkTable [("name", mkAttType false "string")]]> dated_orders)
       ([("Orders", "o")] ++ [("Customers", "o"); ("Customers", "c")])
       (TimesOp (Identifier "o" "amount") (IntLiteral 2))
     = typeCheck dated_orders [("Orders", "o")]
         (TimesOp (Identifier "o" "amount") (IntLiteral 2)).
Proof.
  assert (Hok : value (typeCheck dated_orders [("Orders", "o")]
                         (TimesOp (Identifier "o" "amount") (IntLiteral 2)))
                <> errType) by (vm_compute; discriminate).
  split; [exact Hok |].
  exact (well_typed_tree_survives_extension _ _ _ _ _
           dated_orders_extended Hok).
Defined.

Lemma operand_order_is_irrelevant_witness :
  In PlusOp binary_nodes
  /\ value (typeCheck ∅ [] (PlusOp (StringLiteral "a") (IntLiteral 1)))
     = value (typeCheck ∅ [] (PlusOp (IntLiteral 1) (StringLiteral "a"))).
Proof.
  assert (Hplus : In PlusOp binary_nodes) by (simpl; auto).
  split; [exact Hplus |].
  exact (operand_order_is_irrelevant ∅ [] PlusOp _ _ Hplus).
Defined.

Lemma type_decided_by_child_types_witness :
  In MinusOp binary_nodes
  /\ value (typeCheck ∅ [] (IntLiteral 1))
     = value (typeCheck ∅ [] (SumOp (IntLiteral 7)))
  /\ value (typeCheck ∅ [] (MinusOp (IntLiteral 1) (IntLiteral 2)))
     = value (typeCheck ∅ [] (MinusOp (SumOp (IntLiteral 7)) (IntLiteral 2)))
  /\ In AvgOp unary_nodes
  /\ value (typeCheck ∅ [] (AvgOp (IntLiteral 1)))
     = value (typeCheck ∅ [] (AvgOp (SumOp (IntLiteral 7)))).
Proof.
  assert (Hminus : In MinusOp binary_nodes) by (simpl; auto).
  assert (Havg : In AvgOp unary_nodes) by (simpl; auto).
  assert (Hsame : value (typeCheck ∅ [] (IntLiteral 1))
                  = value (typeCheck ∅ [] (SumOp (IntLiteral 7))))
    by reflexivity.
  split; [exact Hminus |]. split; [exact Hsame |].
  split.
  - exact (proj1 (type_decided_by_child_types ∅ []) MinusOp
             (IntLiteral 1) (IntLiteral 2) (SumOp (IntLiteral 7)) (IntLiteral 2)
             Hminus Hsame eq_refl).
  - split; [exact Havg |].
    exact (proj2 (type_decided_by_child_types ∅ []) AvgOp
             (IntLiteral 1) (SumOp (IntLiteral 7)) Havg Hsame).
Defined.

Lemma result_types_by_node_witness :
  In EqOp (comparison_nodes ++ [OrOp])
  /\ In (value (typeCheck ∅ [] (EqOp (IntLiteral 1) (BoolLiteral true))))
       [boolType; errType]
  /\ In TimesOp [MinusOp; TimesOp]
  /\ In (value (typeCheck ∅ [] (TimesOp (IntLiteral 1) (IntLiteral 2))))
       [intType; doubleType; errType].
Proof.
  assert (Heq : In EqOp (comparison_nodes ++ [OrOp])) by (simpl; auto).
  assert (Htimes : In TimesOp [MinusOp; TimesOp]) by (simpl; auto).
  destruct (result_types_by_node ∅ []) as (Hbool & _ & Hnum & _).
  split; [exact Heq |]. split; [exact (Hbool EqOp _ _ Heq) |].
  split; [exact Htimes |]. exact (Hnum TimesOp _ _ Htimes).
Defined.

Lemma boolean_rules_witness :
  (value (typeCheck ∅ [] (BoolLiteral true)) = boolType
   /\ value (typeCheck ∅ [] (NotOp (BoolLiteral false))) = boolType)
  /\ typeCheck ∅ [] (OrOp (BoolLiteral true) (NotOp (BoolLiteral false)))
     = mkOut boolType []
  /\ value (typeCheck ∅ [] (IntLiteral 5)) <> boolType
  /\ value (typeCheck ∅ [] (NotOp (IntLiteral 5))) = errType.
Proof.
  assert (Hboth : value (typeCheck ∅ [] (BoolLiteral true)) = boolType
                  /\ value (typeCheck ∅ [] (NotOp (BoolLiteral false)))
                     = boolType) by (split; reflexivity).
  assert (Hint : value (typeCheck ∅ [] (IntLiteral 5)) <> boolType)
    by (simpl; discriminate).
  destruct (boolean_rules ∅ []) as [Hor Hnot].
  split; [exact Hboth |].
  split; [exact (proj1 (Hor _ _) Hboth) |].
  split; [exact Hint |].
  exact (proj1 (proj2 (Hnot (IntLiteral 5))) Hint).
Defined.

Lemma findAlias_finds_first_witness :
  findAlias [("Customers", "c"); ("Orders", "o"); ("Lineitem", "o")] "o"
  = Some "Orders"
  /\ (exists before after,
        [("Customers", "c"); ("Orders", "o"); ("Lineitem", "o")]
        = before ++ ("Orders", "o") :: after
        /\ forall p, In p before -> p.2 <> "o")
  /\ findAlias [("Customers", "c")] "o" = None
  /\ (forall p, In p [("Customers", "c")] -> p.2 <> "o").
Proof.
  assert (Hfound : findAlias [("Customers", "c"); ("Orders", "o");
                              ("Lineitem", "o")] "o" = Some "Orders")
    by reflexivity.
  assert (Hnone : findAlias [("Customers", "c")] "o" = None) by reflexivity.
  split; [exact Hfound |].
  split; [exact (proj1 (proj1 (findAlias_finds_first _ "o") "Orders") Hfound) |].
  split; [exact Hnone |].
  exact (proj1 (proj2 (findAlias_finds_first _ "o")) Hnone).
Defined.

Lemma isAggregate_through_arithmetic_witness :
  isAggregate (MinusOp (IntLiteral 1) (PlusOp (AvgOp (Identifier "o" "amount"))
                                          (IntLiteral 2))) = true
  /\ exists node child,
       In node aggregate_nodes
       /\ arithmetic_path (node child)
            (MinusOp (IntLiteral 1) (PlusOp (AvgOp (Identifier "o" "amount"))
                                       (IntLiteral 2))).
Proof.
  split; [reflexivity |].
  exact (proj1 (isAggregate_through_arithmetic
                  (MinusOp (IntLiteral 1)
                     (PlusOp (AvgOp (Identifier "o" "amount")) (IntLiteral 2))))
           eq_refl).
Defined.

Lemma typeToString_is_injective_witness :
  typeToString doubleType = typeToString doubleType
  /\ doubleType = doubleType.
Proof.
  split; [reflexivity |].
  exact (typeToString_is_injective doubleType doubleType eq_refl).
Defined.

Lemma binding_order_is_irrelevant_witness :
  NoDup [("Customers", "c"); ("Orders", "o")].*2
  /\ [("Customers", "c"); ("Orders", "o")] ≡ₚ [("Orders", "o"); ("Customers", "c")]
  /\ typeCheck dated_orders [("Customers", "c"); ("Orders", "o")]
       (PlusOp (Identifier "o" "amount") (Identifier "c" "name"))
     = typeCheck dated_orders [("Orders", "o"); ("Customers", "c")]
         (PlusOp (Identifier "o" "amount") (Identifier "c" "name")).
Proof.
  assert (Hdistinct : NoDup [("Customers", "c"); ("Orders", "o")].*2).
  { cbn. apply NoDup_cons. split; [| apply NoDup_singleton].
    intros Hin. apply list_elem_of_singleton in Hin. discriminate Hin. }
  assert (Hperm : [("Customers", "c"); ("Orders", "o")]
                  ≡ₚ [("Orders", "o"); ("Customers", "c")])
    by apply perm_swap.
  split; [exact Hdistinct |]. split; [exact Hperm |].
  exact (binding_order_is_irrelevant dated_orders _ _ _ Hdistinct Hperm).
Defined.
